(** * LaTeX build server: workspace path guard and command reports

    A shallow embedding of [server.py].  The three tools ([build_latex],
    [clean_latex], [read_latex_log]) and the guard they share
    ([resolve_workspace_path]) are written in a small state-and-exception
    monad over an explicit world: a file system with symbolic links, the
    process working directory and a log of the operating-system calls the
    server makes.  The child process is a parameter of the development.

    Library calls follow CPython 3.12 on POSIX: [pathlib.PurePosixPath]
    (parsing, [str], [parent], [name], [stem], [relative_to]),
    [posixpath.realpath] and [normpath] (behind [Path.resolve]) and the
    UTF-8 codec (behind [bytes.decode] and [Path.read_text]).  A Python
    [str] is represented by the Rocq [string] holding its UTF-8 bytes, so
    that ordering and concatenation agree with Python's. *)

From Stdlib Require Import Strings.Byte Strings.Ascii.
From stdpp Require Import base option list strings gmap pretty sorting.

(** ** Python [str] operations used by the server and by pathlib *)

(** The POSIX path separator. *)
Definition sep : ascii := "/"%char.

(** [s.split("/")]: never empty, [""] splits to [[""]]. *)
Fixpoint str_split (s : string) : list string :=
  match s with
  | EmptyString => [""]
  | String c s' =>
      if Ascii.eqb c sep then "" :: str_split s'
      else match str_split s' with
           | h :: t => String c h :: t
           | [] => [String c ""]
           end
  end.

(** [d.join(parts)]. *)
Fixpoint str_join (d : string) (parts : list string) : string :=
  match parts with
  | [] => ""
  | [x] => x
  | x :: rest => x +:+ d +:+ str_join d rest
  end.

(** [s.rfind(c)], with [None] for Python's [-1]. *)
Fixpoint str_rfind (c : ascii) (s : string) : option nat :=
  match s with
  | EmptyString => None
  | String a s' =>
      match str_rfind c s' with
      | Some i => Some (S i)
      | None => if Ascii.eqb a c then Some 0 else None
      end
  end.

(** [c in s] for a single character. *)
Fixpoint str_contains_char (c : ascii) (s : string) : bool :=
  match s with
  | EmptyString => false
  | String a s' => Ascii.eqb a c || str_contains_char c s'
  end.


(** [repr(s)] for the strings that occur in messages here: quoted, without
    the escapes Python adds for quotes, backslashes and control characters. *)
Definition py_repr (s : string) : string := "'" +:+ s +:+ "'".

(** ** [pathlib.PurePosixPath] *)

(** A parsed path: [_root] is [""], ["/"] or ["//"]; [_tail] holds the
    segments after the root.  The drive is always empty on POSIX. *)
Record PurePath := { _root : string; _tail : list string }.

Global Instance PurePath_eq_dec : EqDecision PurePath.
Proof. solve_decision. Defined.

(** [posixpath.splitroot] without the drive: a path that starts with
    exactly two slashes keeps both as its root. *)
Definition splitroot (p : string) : string * string :=
  match p with
  | String "/" (String "/" (String "/" r)) => ("/", String "/" (String "/" r))
  | String "/" (String "/" r) => ("//", r)
  | String "/" r => ("/", r)
  | _ => ("", p)
  end.

(** The segments kept by [_parse_path]: [x for x in rel.split(sep) if x and
    x != '.']. *)
Definition keep_segment (x : string) : bool :=
  negb (String.eqb x "") && negb (String.eqb x ".").

(** [Path(s)], that is [PurePath._parse_path]. *)
Definition Path (s : string) : PurePath :=
  match s with
  | EmptyString => {| _root := ""; _tail := [] |}
  | _ =>
      let '(root, rel) := splitroot s in
      {| _root := root; _tail := filter (λ x, keep_segment x = true) (str_split rel) |}
  end.

(** [str(p)]: the root followed by the joined segments, ["."] when both are
    empty. *)
Definition Path_str (p : PurePath) : string :=
  match _root p +:+ str_join "/" (_tail p) with
  | EmptyString => "."
  | s => s
  end.

(** [p.is_absolute()] on POSIX: the root is not empty. *)
Definition Path_is_absolute (p : PurePath) : bool :=
  negb (String.eqb (_root p) "").

(** [p / q] for two paths: an absolute right operand replaces the left. *)
Definition Path_joinpath (p q : PurePath) : PurePath :=
  if Path_is_absolute q then q
  else {| _root := _root p; _tail := _tail p ++ _tail q |}.

(** [p / s] for a string operand. *)
Definition Path_truediv (p : PurePath) (s : string) : PurePath :=
  Path_joinpath p (Path s).

(** [p.parent]: a path without segments is its own parent. *)
Definition Path_parent (p : PurePath) : PurePath :=
  match _tail p with
  | [] => p
  | _ => {| _root := _root p; _tail := removelast (_tail p) |}
  end.

(** [p.name]: the last segment, [""] when there is none. *)
Definition Path_name (p : PurePath) : string :=
  List.last (_tail p) "".

(** [p.stem]: the name up to its last dot, unless that dot is the first or
    the last character. *)
Definition Path_stem (p : PurePath) : string :=
  let name := Path_name p in
  match str_rfind "." name with
  | Some i =>
      if (0 <? i) && (i <? String.length name - 1)
      then String.substring 0 i name
      else name
  | None => name
  end.

(** [p.parents]: the ancestors of [p], nearest first. *)
Definition Path_parents (p : PurePath) : list PurePath :=
  (λ n, {| _root := _root p; _tail := take n (_tail p) |})
    <$> rev (seq 0 (length (_tail p))).

(** [p.is_relative_to(other)]: [other == p or other in p.parents]. *)
Definition Path_is_relative_to (p other : PurePath) : bool :=
  bool_decide (other = p) || bool_decide (other ∈ Path_parents p).

(** ** Exceptions *)

(** The exceptions that reach the server's [try] blocks; each carries the
    text of [str(exc)]. *)
Inductive exn :=
| ValueError (msg : string)
| RuntimeError (msg : string)
| UnicodeDecodeError (msg : string)
| OSError (msg : string).

Definition exn_str (e : exn) : string :=
  match e with
  | ValueError m | RuntimeError m | UnicodeDecodeError m | OSError m => m
  end.

(** [p.relative_to(other)]: the segments of [p] below [other], or
    [ValueError] when [p] is not [other] or below it. *)
Definition Path_relative_to (p other : PurePath) : exn + PurePath :=
  if Path_is_relative_to p other
  then inr {| _root := ""; _tail := drop (length (_tail other)) (_tail p) |}
  else inl (ValueError (py_repr (Path_str p) +:+ " is not in the subpath of "
                          +:+ py_repr (Path_str other))).

(** ** The file system *)

(** What a directory entry is.  A symbolic link stores its target as the
    text given to [symlink]. *)
Inductive Node :=
| File (content : list byte)
| Dir
| Symlink (target : string).

(** A file system maps the location of each entry (its segments from the
    root directory, through no link) to the entry. *)
Abbreviation FS := (gmap (list string) Node).

(** [os.lstat]: the entry at a location, the link itself if it is one.  The
    root directory always exists. *)
Definition os_lstat (fs : FS) (loc : list string) : option Node :=
  match loc with
  | [] => Some Dir
  | _ => fs !! loc
  end.

(** [posixpath.isabs]. *)
Definition isabs (s : string) : bool := String.prefix "/" s.

(** [posixpath._joinrealpath] in non-strict mode, on segments: [path] is
    the location reached so far, [rest] the segments still to walk, [seen]
    the links met (with [None] while a link is being followed).  The
    boolean is [false] when a link leads back to itself; the unwalked
    segments are then appended as they are.  [depth] bounds the nesting of
    links being followed, which cannot exceed the number of links: the
    walk never stops for want of it ([joinrealpath_depth_enough]). *)
Fixpoint joinrealpath (depth : nat) (fs : FS) (path rest : list string)
    (seen : gmap (list string) (option (list string))) {struct depth}
    : list string * bool * gmap (list string) (option (list string)) :=
  (fix walk (rest path : list string)
       (seen : gmap (list string) (option (list string))) {struct rest} :=
     match rest with
     | [] => (path, true, seen)
     | name :: rest' =>
         if bool_decide (name = "" ∨ name = ".") then walk rest' path seen
         else if bool_decide (name = "..") then walk rest' (removelast path) seen
         else
           let newpath := path ++ [name] in
           match os_lstat fs newpath with
           | Some (Symlink target) =>
               match seen !! newpath with
               | Some (Some resolved) => walk rest' resolved seen
               | Some None => (newpath ++ rest', false, seen)
               | None =>
                   match depth with
                   | 0 => (newpath ++ rest', false, seen)
                   | S depth' =>
                       let '(resolved, ok, seen') :=
                         joinrealpath depth' fs
                           (if isabs target then [] else path)
                           (str_split target)
                           (<[newpath := None]> seen) in
                       if ok then walk rest' resolved (<[newpath := Some resolved]> seen')
                       else (resolved ++ rest', false, seen')
                   end
               end
           | _ => walk rest' newpath seen
           end
     end) rest path seen.

(** One turn of the loop of [posixpath.normpath] for an absolute path:
    empty and dot segments are skipped, [..] drops the last segment kept
    (none at the root), any other segment is kept. *)
Definition normpath_step (new_comps : list string) (comp : string) : list string :=
  if bool_decide (comp = "" ∨ comp = ".") then new_comps
  else if bool_decide (comp = "..") then removelast new_comps
  else new_comps ++ [comp].

(** [posixpath.normpath] on the segments of an absolute path. *)
Definition normpath (comps : list string) : list string :=
  foldl normpath_step [] comps.

(** [posixpath.realpath(s)]: the walk starts at the root for an absolute
    [s] and at the working directory otherwise; the result goes through
    [abspath]. *)
Definition realpath (fs : FS) (cwd : list string) (s : string) : list string * bool :=
  let '(path, ok, _) :=
    joinrealpath (size fs) fs (if isabs s then [] else cwd) (str_split s) ∅ in
  (normpath path, ok).

(** The kernel's path walk behind [os.stat]: every directory on the way has
    to exist, and links are followed, to a nesting of at most [depth]. *)
Fixpoint namei (depth : nat) (fs : FS) (cur rest : list string) {struct depth}
    : option (list string) :=
  (fix walk (rest cur : list string) {struct rest} :=
     match rest with
     | [] => Some cur
     | name :: rest' =>
         match os_lstat fs cur with
         | Some Dir =>
             if bool_decide (name = "" ∨ name = ".") then walk rest' cur
             else if bool_decide (name = "..") then walk rest' (removelast cur)
             else
               match os_lstat fs (cur ++ [name]) with
               | None => None
               | Some (Symlink target) =>
                   match depth with
                   | 0 => None
                   | S depth' =>
                       match namei depth' fs (if isabs target then [] else cur)
                               (str_split target) with
                       | Some loc => walk rest' loc
                       | None => None
                       end
                   end
               | Some _ => walk rest' (cur ++ [name])
               end
         | _ => None
         end
     end) rest cur.

(** The nesting of links the kernel follows before it gives up with
    [ELOOP]. *)
Definition MAXSYMLINKS : nat := 40.

(** [os.stat(s)]: the entry the path leads to, links followed. *)
Definition os_stat (fs : FS) (cwd : list string) (s : string) : option Node :=
  if bool_decide (s = "") then None
  else
    match namei MAXSYMLINKS fs (if isabs s then [] else cwd) (str_split s) with
    | Some loc => os_lstat fs loc
    | None => None
    end.

(** The names in the directory at [loc], in the order the map lists them. *)
Definition os_listdir (fs : FS) (loc : list string) : list string :=
  omap (λ '(k, _),
          match k with
          | [] => None
          | _ => if bool_decide (removelast k = loc) then Some (List.last k "") else None
          end)
       (map_to_list fs).

(** ** The UTF-8 codec *)

(** The verdict on the byte sequence at the head of the input: a
    well-formed sequence of [n] bytes, or an error that spans [n] bytes
    (what the codec reports to its error handler as [start] and [end]). *)
Inductive Utf8Step :=
| Good (n : nat)
| Bad (n : nat).

Definition in_range (lo hi b : N) : bool := ((lo <=? b) && (b <=? hi))%N.

(** A continuation byte, [0x80] to [0xBF]. *)
Definition is_continuation (b : N) : bool := in_range 128 191 b.

(** One step of the decoder.  Overlong forms, surrogates and code points
    above [0x10FFFF] are errors, as are bytes [0xC0], [0xC1] and
    [0xF5]..[0xFF] in the lead position. *)
Definition utf8_step (bs : list N) : Utf8Step :=
  match bs with
  | [] => Good 0
  | b0 :: r =>
      if (b0 <? 128)%N then Good 1
      else if in_range 194 223 b0 then
        match r with
        | b1 :: _ => if is_continuation b1 then Good 2 else Bad 1
        | [] => Bad 1
        end
      else if in_range 224 239 b0 then
        let lo := if (b0 =? 224)%N then 160%N else 128%N in
        let hi := if (b0 =? 237)%N then 159%N else 191%N in
        match r with
        | b1 :: r1 =>
            if in_range lo hi b1 then
              match r1 with
              | b2 :: _ => if is_continuation b2 then Good 3 else Bad 2
              | [] => Bad 2
              end
            else Bad 1
        | [] => Bad 1
        end
      else if in_range 240 244 b0 then
        let lo := if (b0 =? 240)%N then 144%N else 128%N in
        let hi := if (b0 =? 244)%N then 143%N else 191%N in
        match r with
        | b1 :: r1 =>
            if in_range lo hi b1 then
              match r1 with
              | b2 :: r2 =>
                  if is_continuation b2 then
                    match r2 with
                    | b3 :: _ => if is_continuation b3 then Good 4 else Bad 3
                    | [] => Bad 3
                    end
                  else Bad 2
              | [] => Bad 2
              end
            else Bad 1
        | [] => Bad 1
        end
      else Bad 1
  end.

(** The decoder loop.  With [ignore] set an ill-formed span is dropped
    ([errors="ignore"]); otherwise it stops the decoding with [None]
    ([errors="strict"]).  Each step consumes at least one byte, so the
    length of the input is fuel enough ([utf8_decode_loop_fuel]). *)
Fixpoint utf8_decode_loop (ignore : bool) (fuel : nat) (bs : list byte) : option (list byte) :=
  match fuel, bs with
  | _, [] => Some []
  | 0, _ => Some []
  | S fuel', _ =>
      match utf8_step (Byte.to_N <$> bs) with
      | Good n => (take n bs ++.) <$> utf8_decode_loop ignore fuel' (drop n bs)
      | Bad n => if ignore then utf8_decode_loop ignore fuel' (drop n bs) else None
      end
  end.

(** [bs.decode()]: UTF-8 with [errors="strict"].  The message of the
    exception is cut short of the byte and position Python adds. *)
Definition bytes_decode (bs : list byte) : exn + string :=
  match utf8_decode_loop false (length bs) bs with
  | Some out => inr (String.string_of_list_byte out)
  | None => inl (UnicodeDecodeError "'utf-8' codec can't decode bytes")
  end.

(** [bs.decode("utf-8", "ignore")]. *)
Definition bytes_decode_ignore (bs : list byte) : string :=
  match utf8_decode_loop true (length bs) bs with
  | Some out => String.string_of_list_byte out
  | None => ""
  end.

(** Text mode with [newline=None]: ["\r\n"] and ["\r"] read as ["\n"]. *)
Fixpoint universal_newlines (s : string) : string :=
  match s with
  | EmptyString => ""
  | String "013" (String "010" r) => String "010" (universal_newlines r)
  | String "013" r => String "010" (universal_newlines r)
  | String c r => String c (universal_newlines r)
  end.

(** ** The world and the monad of server code *)

(** The calls the server makes on paths it has built itself, and the
    commands it starts. *)
Inductive Event :=
| EvStat (p : PurePath)
| EvIterdir (p : PurePath)
| EvReadText (p : PurePath)
| EvSpawn (cmd : string) (cwd : PurePath).

Record World := {
  w_fs : FS;
  w_cwd : list string;
  w_trace : list Event
}.

Inductive Result (A : Type) :=
| Ok (a : A)
| Raise (e : exn).
Arguments Ok {A} a.
Arguments Raise {A} e.

(** A computation runs in a world and leaves a world, with a value or an
    exception in flight. *)
Definition M (A : Type) : Type := World → Result A * World.

Global Instance M_ret : MRet M := λ A a w, (Ok a, w).

Global Instance M_bind : MBind M := λ A B f m w,
  match m w with
  | (Ok a, w') => f a w'
  | (Raise e, w') => (Raise e, w')
  end.

Definition raise {A} (e : exn) : M A := λ w, (Raise e, w).

(** [try: body / except <handler applies>: ...]: [handler] returns [None]
    for the exceptions its [except] clause does not name. *)
Definition try_except {A} (body : M A) (handler : exn → option (M A)) : M A :=
  λ w,
    match body w with
    | (Raise e, w') =>
        match handler e with
        | Some h => h w'
        | None => (Raise e, w')
        end
    | r => r
    end.

(** [except ValueError as exc]; [UnicodeDecodeError] is a [ValueError]. *)
Definition except_ValueError {A} (h : exn → M A) (e : exn) : option (M A) :=
  match e with
  | ValueError _ | UnicodeDecodeError _ => Some (h e)
  | _ => None
  end.

(** [except Exception as exc]. *)
Definition except_Exception {A} (h : exn → M A) (e : exn) : option (M A) :=
  Some (h e).

(** The world with one more call on its log. *)
Definition add_event (w : World) (ev : Event) : World :=
  {| w_fs := w_fs w; w_cwd := w_cwd w; w_trace := w_trace w ++ [ev] |}.

Definition log_event (ev : Event) : M unit := λ w, (Ok (), add_event w ev).

(** A computation that looks at the world without changing it. *)
Definition read_world {A} (f : World → Result A) : M A := λ w, (f w, w).

Definition lift_sum {A} (r : exn + A) : M A :=
  match r with
  | inl e => raise e
  | inr a => mret a
  end.

(** [for x in xs] collecting the results, in order. *)
Fixpoint for_each {A B} (f : A → M B) (xs : list A) : M (list B) :=
  match xs with
  | [] => mret []
  | x :: xs' => y ← f x; ys ← for_each f xs'; mret (y :: ys)
  end.

(** [[x for x in xs if test(x)]]. *)
Fixpoint filter_if {A} (test : A → M bool) (xs : list A) : M (list A) :=
  match xs with
  | [] => mret []
  | x :: xs' =>
      b ← test x;
      ys ← filter_if test xs';
      mret (if (b : bool) then x :: ys else ys)
  end.

(** ** [pathlib.Path]: the calls that reach the file system *)

(** [p.resolve()]: [realpath] of [str(p)], parsed back.  A name with a NUL
    byte makes [os.lstat] raise [ValueError]; a link that leads back to
    itself makes [resolve] raise [RuntimeError], whose message names the
    path [realpath] gave. *)
Definition Path_resolve (p : PurePath) : M PurePath :=
  read_world (λ w,
    if str_contains_char "000" (Path_str p) then
      Raise (ValueError "embedded null byte")
    else
      let '(comps, ok) := realpath (w_fs w) (w_cwd w) (Path_str p) in
      let resolved := {| _root := "/"; _tail := comps |} in
      if ok then Ok resolved
      else Raise (RuntimeError ("Symlink loop from " +:+ py_repr (Path_str resolved)))).

(** Whether [os.stat] finds something at [p].  A missing entry, a
    non-directory on the way, a link loop and a NUL byte all give [false]. *)
Definition stat_exists (fs : FS) (cwd : list string) (p : PurePath) : bool :=
  if str_contains_char "000" (Path_str p) then false
  else bool_decide (is_Some (os_stat fs cwd (Path_str p))).

(** [p.exists()]. *)
Definition Path_exists (p : PurePath) : M bool :=
  _ ← log_event (EvStat p);
  read_world (λ w, Ok (stat_exists (w_fs w) (w_cwd w) p)).

(** [p.is_dir()]. *)
Definition Path_is_dir (p : PurePath) : M bool :=
  _ ← log_event (EvStat p);
  read_world (λ w,
    Ok (if str_contains_char "000" (Path_str p) then false
        else match os_stat (w_fs w) (w_cwd w) (Path_str p) with
             | Some Dir => true
             | _ => false
             end)).

(** [list(p.iterdir())]: the children of the directory [p] leads to, each
    as [p] with the child's name for one more segment. *)
Definition Path_iterdir (p : PurePath) : M (list PurePath) :=
  _ ← log_event (EvIterdir p);
  read_world (λ w,
    if str_contains_char "000" (Path_str p) then
      Raise (ValueError "embedded null byte")
    else
      match namei MAXSYMLINKS (w_fs w) (if Path_is_absolute p then [] else w_cwd w)
              (str_split (Path_str p)) with
      | Some loc =>
          match os_lstat (w_fs w) loc with
          | Some Dir =>
              Ok ((λ name, {| _root := _root p; _tail := _tail p ++ [name] |})
                    <$> os_listdir (w_fs w) loc)
          | _ => Raise (OSError ("[Errno 20] Not a directory: " +:+ py_repr (Path_str p)))
          end
      | None =>
          Raise (OSError ("[Errno 2] No such file or directory: " +:+ py_repr (Path_str p)))
      end).

(** [p.read_text(encoding="utf-8", errors="ignore")]. *)
Definition Path_read_text_ignore (p : PurePath) : M string :=
  _ ← log_event (EvReadText p);
  read_world (λ w,
    if str_contains_char "000" (Path_str p) then
      Raise (ValueError "embedded null byte")
    else
      match os_stat (w_fs w) (w_cwd w) (Path_str p) with
      | Some (File content) => Ok (universal_newlines (bytes_decode_ignore content))
      | Some _ => Raise (OSError ("[Errno 21] Is a directory: " +:+ py_repr (Path_str p)))
      | None =>
          Raise (OSError ("[Errno 2] No such file or directory: " +:+ py_repr (Path_str p)))
      end).

(** ** The host: configuration and child processes *)

(** What the module reads once at start-up and what it asks of the
    operating system.  [WORKSPACE_ROOT] is the value of
    [Path(os.environ.get("WORKSPACE_ROOT", "/workspaces")).resolve()].
    [create_subprocess_shell cmd cwd fs] runs [cmd] through the shell in
    directory [cwd] until it ends: it gives the file system the child
    leaves behind, its exit code and the bytes it wrote to standard output
    and standard error, or the exception raised when it cannot start. *)
Class Host := {
  WORKSPACE_ROOT : PurePath;
  create_subprocess_shell : string → string → FS → exn + (FS * (Z * list byte * list byte))
}.

(** [asyncio.create_subprocess_shell] followed by [proc.communicate()]. *)
Definition subprocess_communicate `{Host} (cmd : string) (cwd : PurePath)
    : M (Z * list byte * list byte) :=
  _ ← log_event (EvSpawn cmd cwd);
  (λ w,
     match create_subprocess_shell cmd (Path_str cwd) (w_fs w) with
     | inl e => (Raise e, w)
     | inr (fs', out) =>
         (Ok out, {| w_fs := fs'; w_cwd := w_cwd w; w_trace := w_trace w |})
     end) : M _.

(** ** [server.py] *)

(** The line feed and the double quote of Python's string literals. *)
Definition nl : string := String "010" "".
Definition dquote : string := String "034" "".

(** Python orders paths by their segments and strings by code point. *)
Fixpoint parts_leb (a b : list string) : bool :=
  match a, b with
  | [], _ => true
  | _ :: _, [] => false
  | x :: a', y :: b' =>
      match String.compare x y with
      | Lt => true
      | Gt => false
      | Eq => parts_leb a' b'
      end
  end.

Definition path_le (p q : PurePath) : Prop :=
  parts_leb (_root p :: _tail p) (_root q :: _tail q) = true.

Global Instance path_le_dec p q : Decision (path_le p q).
Proof. unfold path_le. apply _. Defined.

Definition str_le (x y : string) : Prop := String.leb x y = true.

Global Instance str_le_dec x y : Decision (str_le x y).
Proof. unfold str_le. apply _. Defined.

(** [sorted(ps)] for paths and for strings. *)
Definition sorted_paths (ps : list PurePath) : list PurePath := merge_sort path_le ps.

Definition sorted_strs (xs : list string) : list string := merge_sort str_le xs.

Section Server.
Context `{Host}.

(** Return a short listing of WORKSPACE_ROOT and first-level
    subdirectories. *)
Definition workspace_overview (max_entries : nat) : M string :=
  listed ← try_except
    (entries ← Path_iterdir WORKSPACE_ROOT; mret (inr entries))
    (except_Exception (λ exc,
       mret (inl ("(could not list " +:+ Path_str WORKSPACE_ROOT +:+ ": "
                    +:+ exn_str exc +:+ ")"))));
  match listed with
  | inl message => mret message
  | inr entries =>
      let lines := ["- " +:+ Path_str WORKSPACE_ROOT] in
      found ← filter_if Path_is_dir entries;
      let dirs := sorted_paths found in
      more ← for_each (λ d,
        subs ← try_except
          (ps ← Path_iterdir d;
           ds ← filter_if Path_is_dir ps;
           mret (sorted_strs (Path_name <$> ds)))
          (except_Exception (λ _, mret []));
        let suffix :=
          match subs with
          | [] => ""
          | _ => " (subdirs: " +:+ str_join ", " (take 5 subs) +:+ ")"
          end in
        mret ("  - " +:+ Path_name d +:+ suffix)) (take max_entries dirs);
      let lines := lines ++ more in
      let lines :=
        if max_entries <? length dirs
        then lines ++ ["  - ... (" +:+ pretty (length dirs - max_entries) +:+ " more)"]
        else lines in
      mret (str_join nl lines)
  end.

(** General instructions for clients/models about path handling and
    workspace shape. *)
Definition initial_guidance : M string :=
  overview ← workspace_overview 10;
  mret ("This MCP server runs inside a dev container. Use paths under "
        +:+ Path_str WORKSPACE_ROOT +:+ " "
        +:+ "as seen inside the container; the server will reject paths outside this root. "
        +:+ "If you are on Windows, rewrite host paths like "
        +:+ "C:\Users\...\<repo>\subdir\file.tex to /workspaces/<repo>/subdir/file.tex "
        +:+ "or a relative path under WORKSPACE_ROOT before calling the tools. "
        +:+ "The server does not auto-convert host paths. "
        +:+ "Workspace overview:" +:+ nl +:+ overview).

Definition path_guidance : M string := initial_guidance.

(** Resolve a user-supplied path, enforcing it lives inside
    WORKSPACE_ROOT. *)
Definition resolve_workspace_path (user_path : string) : M PurePath :=
  let candidate := Path user_path in
  let abs_path :=
    if Path_is_absolute candidate then candidate
    else Path_joinpath WORKSPACE_ROOT candidate in
  abs_path ← Path_resolve abs_path;
  (* Raise if the path escapes the allowed root. *)
  _ ← try_except
    (_ ← lift_sum (Path_relative_to abs_path WORKSPACE_ROOT); mret ())
    (except_ValueError (λ exc,
       guidance ← path_guidance;
       raise (ValueError ("Path " +:+ Path_str abs_path +:+ " is outside workspace root "
                            +:+ Path_str WORKSPACE_ROOT +:+ ". " +:+ guidance))));
  mret abs_path.

(** Async version of run_command without threads. *)
Definition run_command_async (cmd : string) (cwd : PurePath) : M string :=
  '(returncode, stdout, stderr) ← subprocess_communicate cmd cwd;
  let log := "> " +:+ cmd +:+ nl +:+ nl in
  out ← match stdout with [] => mret "" | _ => lift_sum (bytes_decode stdout) end;
  let log := log +:+ out in
  err ← match stderr with [] => mret "" | _ => lift_sum (bytes_decode stderr) end;
  let log := log +:+ err in
  mret (if bool_decide (returncode ≠ 0%Z)
        then log +:+ nl +:+ nl +:+ "[latex-mcp] Command exited with code "
               +:+ pretty returncode +:+ nl
        else log).

(** Build the given .tex file with latexmk.  [engine] is [None] when the
    caller leaves the argument out. *)
Definition build_latex (file : string) (engine : option string) : M string :=
  let engine := default "pdflatex" engine in
  resolved ← try_except
    (abs_path ← resolve_workspace_path file; mret (inr abs_path))
    (except_ValueError (λ exc, mret (inl ("ERROR: " +:+ exn_str exc))));
  match resolved with
  | inl report => mret report
  | inr abs_path =>
      found ← Path_exists abs_path;
      if negb found then
        guidance ← path_guidance;
        mret ("ERROR: File not found: " +:+ Path_str abs_path +:+ nl +:+ guidance)
      else
        let cwd := Path_parent abs_path in
        let filename := Path_name abs_path in
        let engine_flag :=
          if String.eqb engine "xelatex" then "-pdfxe"
          else if String.eqb engine "lualatex" then "-pdflua"
          else "-pdf" in
        let cmd :=
          str_join " "
            [ "latexmk";
              "-synctex=1";
              "-interaction=nonstopmode";
              "-file-line-error";
              engine_flag;
              dquote +:+ filename +:+ dquote ] in
        log ← run_command_async cmd cwd;
        let base := Path_stem abs_path in
        let pdf_path := Path_truediv cwd (base +:+ ".pdf") in
        pdf_exists ← Path_exists pdf_path;
        mret ("build_latex finished." +:+ nl +:+ nl
              +:+ "Working directory: " +:+ Path_str cwd +:+ nl
              +:+ "Command: " +:+ cmd +:+ nl
              +:+ "PDF exists: " +:+ (if (pdf_exists : bool) then Path_str pdf_path else "NO")
              +:+ nl +:+ nl
              +:+ "--- Latexmk log ---" +:+ nl +:+ log)
  end.

(** Clean latexmk artifacts next to the target .tex.  [mode] is [None]
    when the caller leaves the argument out. *)
Definition clean_latex (file : string) (mode : option string) : M string :=
  let mode := default "aux" mode in
  resolved ← try_except
    (abs_path ← resolve_workspace_path file; mret (inr abs_path))
    (except_ValueError (λ exc, mret (inl ("ERROR: " +:+ exn_str exc))));
  match resolved with
  | inl report => mret report
  | inr abs_path =>
      found ← Path_exists abs_path;
      if negb found then
        guidance ← path_guidance;
        mret ("ERROR: File not found: " +:+ Path_str abs_path +:+ nl +:+ guidance)
      else
        let cwd := Path_parent abs_path in
        let filename := Path_name abs_path in
        let flag := if String.eqb mode "all" then "-C" else "-c" in
        let cmd := "latexmk " +:+ flag +:+ " " +:+ dquote +:+ filename +:+ dquote in
        log ← run_command_async cmd cwd;
        mret ("clean_latex finished." +:+ nl
              +:+ "Mode: " +:+ mode +:+ nl
              +:+ "Command: " +:+ cmd +:+ nl +:+ nl
              +:+ "--- Latexmk log ---" +:+ nl +:+ log)
  end.

(** Read the .log file next to the target .tex. *)
Definition read_latex_log (file : string) : M string :=
  resolved ← try_except
    (abs_path ← resolve_workspace_path file; mret (inr abs_path))
    (except_ValueError (λ exc, mret (inl ("ERROR: " +:+ exn_str exc))));
  match resolved with
  | inl report => mret report
  | inr abs_path =>
      let cwd := Path_parent abs_path in
      let base := Path_stem abs_path in
      let log_path := Path_truediv cwd (base +:+ ".log") in
      found ← Path_exists log_path;
      if negb found then
        guidance ← path_guidance;
        mret ("Log file not found: " +:+ Path_str log_path +:+ nl
              +:+ "You may need to run build_latex first." +:+ nl +:+ guidance)
      else
        content ← Path_read_text_ignore log_path;
        mret ("Log path: " +:+ Path_str log_path +:+ nl +:+ nl +:+ content)
  end.

End Server.

(** ** Start-up *)


(** The two transports [main] can serve. *)
Inductive Transport :=
| Stdio
| StreamableHttp.

(** [main()] up to the point where it waits for its tasks: the transports
    it has started, in order, or the error it raises for having none. *)
Definition main (environ : gmap string string) : exn + list Transport :=
  let enable_stdio := negb (String.eqb (default "1" (environ !! "ENABLE_STDIO")) "0") in
  let enable_http := negb (String.eqb (default "1" (environ !! "ENABLE_HTTP")) "0") in
  let tasks := [] in
  let tasks := if enable_stdio then tasks ++ [Stdio] else tasks in
  let tasks := if enable_http then tasks ++ [StreamableHttp] else tasks in
  match tasks with
  | [] => inl (RuntimeError "No transports enabled; set ENABLE_STDIO or ENABLE_HTTP to 1.")
  | _ => inr tasks
  end.

(** ** Notions the properties are stated with *)

(** [p] is [root] or lies below it, judged segment by segment. *)
Definition contained_in (root p : PurePath) : Prop :=
  _root p = _root root ∧ ∃ below, _tail p = _tail root ++ below.

(** The commands started in a trace, with their working directories. *)
Definition spawned (tr : list Event) : list (string * PurePath) :=
  omap (λ ev, match ev with EvSpawn cmd cwd => Some (cmd, cwd) | _ => None end) tr.

(** The paths a trace touches: every path that was tested, listed or
    read, and every working directory a command was started in. *)
Definition touched (tr : list Event) : list PurePath :=
  (λ ev, match ev with
         | EvStat p | EvIterdir p | EvReadText p => p
         | EvSpawn _ cwd => cwd
         end) <$> tr.

(** A computation that leaves the file system and the working directory
    as they are and starts no command, whatever it returns. *)
Definition quiet {A} (m : M A) : Prop :=
  ∀ w r w', m w = (r, w') →
    w_fs w' = w_fs w ∧ w_cwd w' = w_cwd w ∧ spawned (w_trace w') = spawned (w_trace w).

(** A computation that stays within [root]: whatever comes of it, every
    path it has touched is [root] or below it, and a value it returns
    satisfies [post]. *)
Definition stays_within {A} (root : PurePath) (m : M A) (post : A → Prop) : Prop :=
  ∀ w r w', m w = (r, w') →
    (∃ evs, w_trace w' = w_trace w ++ evs ∧ Forall (contained_in root) (touched evs))
    ∧ ∀ a, r = Ok a → post a.

(** A computation that always returns. *)
Definition returns {A} (m : M A) : Prop :=
  ∀ w, ∃ a w', m w = (Ok a, w').

(** A segment as parsing keeps them: not empty, not a dot, with no
    separator inside. *)
Definition clean_segment (x : string) : Prop :=
  keep_segment x = true ∧ str_contains_char sep x = false.

(** A name a directory entry can have: not empty, not [.] or [..], with
    no separator inside. *)
Definition entry_name (x : string) : Prop :=
  x ≠ "" ∧ x ≠ "." ∧ x ≠ ".." ∧ str_contains_char sep x = false.

(** The links already followed all led to locations made of entry names. *)
Definition seen_names (seen : gmap (list string) (option (list string))) : Prop :=
  ∀ loc resolved, seen !! loc = Some (Some resolved) → Forall entry_name resolved.

(** The links of a file system that a walk has not met yet. *)
Definition is_symlink (entry : Node) : bool :=
  match entry with
  | Symlink _ => true
  | _ => false
  end.

Definition unseen_link (seen : gmap (list string) (option (list string)))
    (kv : list string * Node) : Prop :=
  is_symlink kv.2 = true ∧ seen !! kv.1 = None.

Global Instance unseen_link_dec seen kv : Decision (unseen_link seen kv).
Proof. unfold unseen_link. apply _. Defined.

Definition links_unseen (fs : FS) (seen : gmap (list string) (option (list string))) : nat :=
  size (filter (unseen_link seen) fs).

(** A file system without symbolic links. *)
Definition link_free (fs : FS) : Prop :=
  ∀ loc target, fs !! loc ≠ Some (Symlink target).

(** A path as [Path.resolve] produces them. *)
Definition resolved_form (p : PurePath) : Prop :=
  _root p = "/" ∧ Forall clean_segment (_tail p).

(** The input as the guard hands it to [resolve]: taken from the workspace
    root unless it is absolute. *)
Definition absolute_form `{Host} (user_path : string) : PurePath :=
  let candidate := Path user_path in
  if Path_is_absolute candidate then candidate
  else Path_joinpath WORKSPACE_ROOT candidate.

(** The flag each engine stands for, the engine left out included. *)
Inductive engine_flag : option string → string → Prop :=
| engine_default : engine_flag None "-pdf"
| engine_pdflatex : engine_flag (Some "pdflatex") "-pdf"
| engine_xelatex : engine_flag (Some "xelatex") "-pdfxe"
| engine_lualatex : engine_flag (Some "lualatex") "-pdflua".

(** The flag each cleaning mode stands for, the mode left out included. *)
Inductive mode_flag : option string → string → Prop :=
| mode_default : mode_flag None "-c"
| mode_aux : mode_flag (Some "aux") "-c"
| mode_all : mode_flag (Some "all") "-C".

(** The command line [build_latex] is to run for a flag and a file name. *)
Definition latexmk_build_command (flag filename : string) : string :=
  "latexmk -synctex=1 -interaction=nonstopmode -file-line-error " +:+ flag +:+ " "
    +:+ dquote +:+ filename +:+ dquote.

(** The command line [clean_latex] is to run for a flag and a file name. *)
Definition latexmk_clean_command (flag filename : string) : string :=
  "latexmk " +:+ flag +:+ " " +:+ dquote +:+ filename +:+ dquote.

(** The transcript of a command: its line, what it wrote to standard
    output, then to standard error, and a closing line with the exit code
    when that is not zero. *)
Definition transcript (cmd out err : string) (code : Z) : string :=
  "> " +:+ cmd +:+ nl +:+ nl +:+ out +:+ err
    +:+ (if bool_decide (code ≠ 0%Z)
         then nl +:+ nl +:+ "[latex-mcp] Command exited with code " +:+ pretty code +:+ nl
         else "").

(** The report of a build: working directory, command, what became of the
    PDF, then the transcript. *)
Definition build_report (cwd : PurePath) (cmd pdf log : string) : string :=
  "build_latex finished." +:+ nl +:+ nl
    +:+ "Working directory: " +:+ Path_str cwd +:+ nl
    +:+ "Command: " +:+ cmd +:+ nl
    +:+ "PDF exists: " +:+ pdf +:+ nl +:+ nl
    +:+ "--- Latexmk log ---" +:+ nl +:+ log.

(** The location has no symbolic link on it. *)
Definition not_a_link (fs : FS) (loc : list string) : Prop :=
  ∀ target, os_lstat fs loc ≠ Some (Symlink target).

(** No segment of the location stands on a symbolic link. *)
Definition link_clear (fs : FS) (loc : list string) : Prop :=
  ∀ k, not_a_link fs (take k loc).


(** Two worlds with the same file system and working directory: they
    differ in the log of calls at most. *)
Definition same_disk (w1 w2 : World) : Prop :=
  w_fs w1 = w_fs w2 ∧ w_cwd w1 = w_cwd w2.

(** A computation that does not look at the log of calls: on the same
    disk it gives the same result and leaves the same disk. *)
Definition log_blind {A} (m : M A) : Prop :=
  ∀ w1 w2, same_disk w1 w2 → (m w1).1 = (m w2).1 ∧ same_disk (m w1).2 (m w2).2.

(** ** Sample hosts and worlds *)

(** A child that writes nothing, changes nothing and exits with 0. *)
Definition silent_child : string → string → FS → exn + (FS * (Z * list byte * list byte)) :=
  λ _ _ fs, inr (fs, (0%Z, [], [])).

(** A child that writes the single byte [0xFF] (a Latin-1 y with
    diaeresis) to its standard output. *)
Definition latin1_child : string → string → FS → exn + (FS * (Z * list byte * list byte)) :=
  λ _ _ fs, inr (fs, (0%Z, [xff], [])).

(** A child that fails with exit code 12 and still leaves [main.pdf]. *)
Definition failing_child : string → string → FS → exn + (FS * (Z * list byte * list byte)) :=
  λ _ _ fs,
    inr (<[ ["workspaces"; "demo"; "main.pdf"] := File [] ]> fs, (12%Z, [x6f; x6b], [])).

Definition host_at (root : list string)
    (child : string → string → FS → exn + (FS * (Z * list byte * list byte))) : Host :=
  {| WORKSPACE_ROOT := {| _root := "/"; _tail := root |};
     create_subprocess_shell := child |}.

(** [/workspaces/demo/main.tex], a stray [/workspaces.log] beside the
    workspace, and [/etc]. *)
Definition demo_fs : FS :=
  list_to_map
    [ (["workspaces"], Dir);
      (["workspaces"; "demo"], Dir);
      (["workspaces"; "demo"; "main.tex"], File [x5c; x62; x79; x65]);
      (["workspaces"; "foo"], Dir);
      (["workspaces"; "foo2"], Dir);
      (["workspaces.log"], File [x68; x69]);
      (["etc"], Dir);
      (["etc"; "passwd"], File []) ].

Definition demo_world : World :=
  {| w_fs := demo_fs; w_cwd := ["workspaces"]; w_trace := [] |}.

(** The server started with [WORKSPACE_ROOT=/workspaces] (the default) and
    with [WORKSPACE_ROOT=/workspaces/foo]. *)
Definition demo_host : Host := host_at ["workspaces"] silent_child.


(** The same server over a child that writes Latin-1, and over one that
    fails and still leaves a document. *)
Definition latin1_host : Host := host_at ["workspaces"] latin1_child.

Definition failing_host : Host := host_at ["workspaces"] failing_child.

(** A child that cannot be started. *)
Definition absent_child : string → string → FS → exn + (FS * (Z * list byte * list byte)) :=
  λ _ _ _, inl (OSError "[Errno 2] No such file or directory: '/bin/sh'").

Definition absent_host : Host := host_at ["workspaces"] absent_child.



(** A workspace with a link [loop] that points to itself. *)
Definition looped_fs : FS :=
  list_to_map
    [ (["workspaces"], Dir);
      (["workspaces"; "loop"], Symlink "loop") ].

Definition looped_world : World :=
  {| w_fs := looped_fs; w_cwd := ["workspaces"]; w_trace := [] |}.

(** The environment of a server with both transports switched off, and of
    one with the standard pipe switched off by the word [false]. *)
Definition env_none : gmap string string :=
  {[ "ENABLE_STDIO" := "0"; "ENABLE_HTTP" := "0" ]}.

Definition env_false : gmap string string :=
  {[ "ENABLE_STDIO" := "false"; "ENABLE_HTTP" := "0" ]}.


(** * Properties *)

(** ** Strings and pure paths *)

Lemma str_split_nonempty s : str_split s ≠ [].
Proof.
  destruct s as [|c s]; simpl; [done|].
  destruct (Ascii.eqb c sep); [done|]. by destruct (str_split s).
Qed.

(** Splitting distributes over a separator put between two strings. *)
Lemma str_split_app_sep a b :
  str_split (a +:+ String sep b) = str_split a ++ str_split b.
Proof.
  induction a as [|c a IH]; simpl.
  - done.
  - rewrite IH. destruct (Ascii.eqb c sep); [done|].
    pose proof (str_split_nonempty a) as Hne.
    destruct (str_split a); [done|]. done.
Qed.

(** A string without separator is a single segment. *)
Lemma str_split_clean x : str_contains_char sep x = false → str_split x = [x].
Proof.
  induction x as [|c x IH]; simpl; [done|].
  intros Hc. apply orb_false_iff in Hc as [Hc Hx].
  rewrite Hc, (IH Hx). done.
Qed.

Lemma str_split_join (xs : list string) :
  xs ≠ [] →
  Forall (λ x, str_contains_char sep x = false) xs →
  str_split (str_join "/" xs) = xs.
Proof.
  induction xs as [|x xs IH]; [done|]. intros _ HF.
  apply Forall_cons in HF as [Hx HF].
  destruct xs as [|y ys].
  - simpl. by apply str_split_clean.
  - change (str_join "/" (x :: y :: ys)) with (x +:+ String sep (str_join "/" (y :: ys))).
    rewrite str_split_app_sep, (str_split_clean x Hx), IH; done.
Qed.

Lemma filter_keep_clean (xs : list string) :
  Forall clean_segment xs → filter (λ x, keep_segment x = true) xs = xs.
Proof.
  induction 1 as [|x xs [Hk _] _ IH]; [done|].
  rewrite filter_cons_True by done. by rewrite IH.
Qed.

(** ** Containment *)

Lemma elem_of_Path_parents p q :
  q ∈ Path_parents p ↔ ∃ n, n < length (_tail p) ∧ q = {| _root := _root p; _tail := take n (_tail p) |}.
Proof.
  unfold Path_parents. rewrite list_elem_of_fmap. split.
  - intros (n & -> & Hn). exists n. split; [|done].
    rewrite list_elem_of_In in Hn. apply in_rev in Hn. apply in_seq in Hn. lia.
  - intros (n & Hn & ->). exists n. split; [done|].
    rewrite list_elem_of_In, <- in_rev. apply in_seq. lia.
Qed.

(** [is_relative_to] decides containment at segment boundaries. *)
Lemma Path_is_relative_to_spec p root :
  Path_is_relative_to p root = true ↔ contained_in root p.
Proof.
  unfold Path_is_relative_to, contained_in.
  rewrite orb_true_iff, !bool_decide_eq_true, elem_of_Path_parents. split.
  - intros [->|(n & Hn & ->)]; simpl.
    + split; [done|]. exists []. by rewrite app_nil_r.
    + split; [done|]. exists (drop n (_tail p)). by rewrite take_drop.
  - intros [Hr [below Ht]]. destruct below as [|b below].
    + left. rewrite app_nil_r in Ht. destruct p, root; simpl in *; congruence.
    + right. exists (length (_tail root)). rewrite Ht. split.
      * rewrite length_app. simpl. lia.
      * rewrite take_app_length. destruct root; simpl in *; congruence.
Qed.

Lemma Path_relative_to_ok p root :
  contained_in root p → ∃ rel, Path_relative_to p root = inr rel.
Proof.
  intros Hc. apply Path_is_relative_to_spec in Hc.
  unfold Path_relative_to. rewrite Hc. eauto.
Qed.

Lemma Path_relative_to_fails p root :
  ¬ contained_in root p → ∃ msg, Path_relative_to p root = inl (ValueError msg).
Proof.
  intros Hc. unfold Path_relative_to.
  destruct (Path_is_relative_to p root) eqn:E; [|eauto].
  by apply Path_is_relative_to_spec in E.
Qed.

(** ** Normal forms *)

Lemma normpath_no_dotdot_acc (comps acc : list string) :
  ".." ∉ acc → ".." ∉ foldl normpath_step acc comps.
Proof.
  revert acc. induction comps as [|c comps IH]; intros acc Hacc; simpl; [done|].
  apply IH. unfold normpath_step. destruct (bool_decide (c = "" ∨ c = ".")); [done|].
  destruct (bool_decide (c = "..")) eqn:Hc.
  - intros Hin. apply Hacc. rewrite list_elem_of_In in *.
    destruct acc as [|a acc] using rev_ind; [done|].
    rewrite removelast_last in Hin. apply in_or_app. by left.
  - apply bool_decide_eq_false in Hc.
    rewrite elem_of_app, list_elem_of_singleton. intros [?|?]; [done|congruence].
Qed.

(** [normpath] leaves no [..] segment in an absolute path. *)
Lemma normpath_no_dotdot comps : ".." ∉ normpath comps.
Proof. apply normpath_no_dotdot_acc. apply not_elem_of_nil. Qed.

(** ** The monad *)

Lemma bind_run {A B} (m : M A) (f : A → M B) w :
  (m ≫= f) w =
  match m w with
  | (Ok a, w') => f a w'
  | (Raise e, w') => (Raise e, w')
  end.
Proof. reflexivity. Qed.

Lemma bind_run_ok {A B} (m : M A) (f : A → M B) w a w' :
  m w = (Ok a, w') → (m ≫= f) w = f a w'.
Proof. intros E. by rewrite bind_run, E. Qed.

Lemma bind_run_raise {A B} (m : M A) (f : A → M B) w e w' :
  m w = (Raise e, w') → (m ≫= f) w = (Raise e, w').
Proof. intros E. by rewrite bind_run, E. Qed.

Lemma try_except_ok {A} (body : M A) handler w a w' :
  body w = (Ok a, w') → try_except body handler w = (Ok a, w').
Proof. intros E. unfold try_except. by rewrite E. Qed.

Lemma try_except_caught {A} (body : M A) handler w e w' h :
  body w = (Raise e, w') → handler e = Some h → try_except body handler w = h w'.
Proof. intros E Hh. unfold try_except. by rewrite E, Hh. Qed.

Lemma try_except_passed {A} (body : M A) handler w e w' :
  body w = (Raise e, w') → handler e = None → try_except body handler w = (Raise e, w').
Proof. intros E Hh. unfold try_except. by rewrite E, Hh. Qed.

Lemma spawned_app tr1 tr2 : spawned (tr1 ++ tr2) = spawned tr1 ++ spawned tr2.
Proof. unfold spawned. apply omap_app. Qed.

(** *** Quiet computations *)

Lemma quiet_ret {A} (a : A) : quiet (mret a).
Proof. intros w r w' [= <- <-]. done. Qed.

Lemma quiet_raise {A} e : quiet (raise (A:=A) e).
Proof. intros w r w' [= <- <-]. done. Qed.

Lemma quiet_read_world {A} (f : World → Result A) : quiet (read_world f).
Proof. intros w r w' [= <- <-]. done. Qed.

Lemma quiet_lift_sum {A} (r : exn + A) : quiet (lift_sum r).
Proof. destruct r; [apply quiet_raise|apply quiet_ret]. Qed.

Lemma quiet_bind {A B} (m : M A) (f : A → M B) :
  quiet m → (∀ a, quiet (f a)) → quiet (m ≫= f).
Proof.
  intros Hm Hf w r w' Hrun. rewrite bind_run in Hrun.
  destruct (m w) as [[a|e] w1] eqn:E; apply Hm in E as (E1 & E2 & E3).
  - apply Hf in Hrun as (F1 & F2 & F3). split_and!; congruence.
  - injection Hrun as <- <-. done.
Qed.

Lemma quiet_try_except {A} (body : M A) handler :
  quiet body → (∀ e h, handler e = Some h → quiet h) → quiet (try_except body handler).
Proof.
  intros Hb Hh w r w' Hrun. unfold try_except in Hrun.
  destruct (body w) as [[a|e] w1] eqn:E; apply Hb in E as (E1 & E2 & E3).
  - injection Hrun as <- <-. done.
  - destruct (handler e) as [h|] eqn:Eh.
    + apply (Hh _ _ Eh) in Hrun as (F1 & F2 & F3). split_and!; congruence.
    + injection Hrun as <- <-. done.
Qed.

Lemma quiet_except_ValueError {A} (k : exn → M A) e h :
  (∀ e, quiet (k e)) → except_ValueError k e = Some h → quiet h.
Proof. intros Hk. destruct e; simpl; intros [= <-]; apply Hk. Qed.

Lemma quiet_except_Exception {A} (k : exn → M A) e h :
  (∀ e, quiet (k e)) → except_Exception k e = Some h → quiet h.
Proof. intros Hk [= <-]. apply Hk. Qed.

Lemma quiet_for_each {A B} (f : A → M B) xs :
  (∀ x, quiet (f x)) → quiet (for_each f xs).
Proof.
  intros Hf. induction xs as [|x xs IH]; simpl.
  - apply quiet_ret.
  - apply quiet_bind; [done|]. intros y.
    apply quiet_bind; [done|]. intros ys. apply quiet_ret.
Qed.

Lemma quiet_filter_if {A} (test : A → M bool) xs :
  (∀ x, quiet (test x)) → quiet (filter_if test xs).
Proof.
  intros Hf. induction xs as [|x xs IH]; simpl.
  - apply quiet_ret.
  - apply quiet_bind; [done|]. intros y.
    apply quiet_bind; [done|]. intros ys. apply quiet_ret.
Qed.

Lemma quiet_log_stat p : quiet (log_event (EvStat p)).
Proof.
  intros w r w' [= <- <-]. simpl. split_and!; [done..|].
  rewrite spawned_app. simpl. by rewrite app_nil_r.
Qed.

Lemma quiet_log_iterdir p : quiet (log_event (EvIterdir p)).
Proof.
  intros w r w' [= <- <-]. simpl. split_and!; [done..|].
  rewrite spawned_app. simpl. by rewrite app_nil_r.
Qed.

Lemma quiet_log_read p : quiet (log_event (EvReadText p)).
Proof.
  intros w r w' [= <- <-]. simpl. split_and!; [done..|].
  rewrite spawned_app. simpl. by rewrite app_nil_r.
Qed.

Lemma quiet_Path_resolve p : quiet (Path_resolve p).
Proof. apply quiet_read_world. Qed.

Lemma quiet_Path_exists p : quiet (Path_exists p).
Proof. apply quiet_bind; [apply quiet_log_stat|]. intros _. apply quiet_read_world. Qed.

Lemma quiet_Path_is_dir p : quiet (Path_is_dir p).
Proof. apply quiet_bind; [apply quiet_log_stat|]. intros _. apply quiet_read_world. Qed.

Lemma quiet_Path_iterdir p : quiet (Path_iterdir p).
Proof. apply quiet_bind; [apply quiet_log_iterdir|]. intros _. apply quiet_read_world. Qed.

Lemma quiet_Path_read_text_ignore p : quiet (Path_read_text_ignore p).
Proof. apply quiet_bind; [apply quiet_log_read|]. intros _. apply quiet_read_world. Qed.

Create HintDb quiet.
#[local] Hint Resolve quiet_ret quiet_raise quiet_read_world quiet_lift_sum
  quiet_Path_resolve quiet_Path_exists
  quiet_Path_is_dir quiet_Path_iterdir quiet_Path_read_text_ignore : quiet.

(** One step through a computation built from binds and [try] blocks. *)
Ltac quiet_step :=
  cbv beta;
  first
    [ solve [eauto with quiet]
    | apply quiet_for_each; intros ?
    | apply quiet_filter_if; intros ?
    | apply quiet_bind; [|intros ?]
    | apply quiet_try_except;
      [|intros ? ? ?;
        first [ eapply quiet_except_ValueError; [intros ?|eassumption]
              | eapply quiet_except_Exception; [intros ?|eassumption] ] ] ].

(** *** Computations that always return *)

Lemma returns_ret {A} (a : A) : returns (mret a).
Proof. intros w. by eexists _, _. Qed.

Lemma returns_bind {A B} (m : M A) (f : A → M B) :
  returns m → (∀ a, returns (f a)) → returns (m ≫= f).
Proof.
  intros Hm Hf w. destruct (Hm w) as (a & w1 & E).
  destruct (Hf a w1) as (b & w2 & F).
  exists b, w2. by rewrite (bind_run_ok _ _ _ _ _ E).
Qed.

(** A [try] block whose handler takes every exception and returns. *)
Lemma returns_try_except_Exception {A} (body : M A) (k : exn → M A) :
  (∀ e, returns (k e)) → returns (try_except body (except_Exception k)).
Proof.
  intros Hk w. unfold try_except.
  destruct (body w) as [[a|e] w1]; [by eexists _, _|].
  simpl. apply Hk.
Qed.

Lemma returns_for_each {A B} (f : A → M B) xs :
  (∀ x, returns (f x)) → returns (for_each f xs).
Proof.
  intros Hf. induction xs as [|x xs IH]; simpl.
  - apply returns_ret.
  - apply returns_bind; [done|]. intros y.
    apply returns_bind; [done|]. intros ys. apply returns_ret.
Qed.

Lemma returns_filter_if {A} (test : A → M bool) xs :
  (∀ x, returns (test x)) → returns (filter_if test xs).
Proof.
  intros Hf. induction xs as [|x xs IH]; simpl.
  - apply returns_ret.
  - apply returns_bind; [done|]. intros y.
    apply returns_bind; [done|]. intros ys. apply returns_ret.
Qed.

Lemma returns_Path_is_dir p : returns (Path_is_dir p).
Proof. intros w. by eexists _, _. Qed.

Lemma returns_Path_exists p : returns (Path_exists p).
Proof. intros w. by eexists _, _. Qed.

(** ** The guidance text *)

Section Guard.
Context `{Host}.

Lemma quiet_workspace_overview n : quiet (workspace_overview n).
Proof.
  unfold workspace_overview. apply quiet_bind; [repeat quiet_step|].
  intros [message|entries]; repeat quiet_step.
Qed.

Lemma quiet_path_guidance : quiet path_guidance.
Proof.
  unfold path_guidance, initial_guidance.
  apply quiet_bind; [apply quiet_workspace_overview|]. intros ?. apply quiet_ret.
Qed.

#[local] Hint Resolve quiet_path_guidance : quiet.

Lemma returns_workspace_overview n : returns (workspace_overview n).
Proof.
  unfold workspace_overview. apply returns_bind.
  - apply returns_try_except_Exception. intros e. apply returns_ret.
  - intros [message|entries]; [apply returns_ret|].
    apply returns_bind; [apply returns_filter_if, returns_Path_is_dir|]. intros found.
    apply returns_bind; [|intros more; apply returns_ret].
    apply returns_for_each. intros d. apply returns_bind.
    + apply returns_try_except_Exception. intros e. apply returns_ret.
    + intros subs. apply returns_ret.
Qed.

(** The guidance text is always produced. *)
Lemma returns_path_guidance : returns path_guidance.
Proof.
  unfold path_guidance, initial_guidance.
  apply returns_bind; [apply returns_workspace_overview|]. intros ?. apply returns_ret.
Qed.

(** ** The guard *)

Lemma quiet_resolve_workspace_path file : quiet (resolve_workspace_path file).
Proof.
  unfold resolve_workspace_path. repeat quiet_step.
Qed.

Lemma Path_resolve_world p w r w' : Path_resolve p w = (r, w') → w' = w.
Proof. by intros [= _ <-]. Qed.

(** What [resolve] returns is absolute and free of [..]. *)
Lemma Path_resolve_ok p w n w' :
  Path_resolve p w = (Ok n, w') → _root n = "/" ∧ ".." ∉ _tail n.
Proof.
  unfold Path_resolve, read_world. intros Hrun.
  destruct (str_contains_char "000" (Path_str p)); [done|].
  unfold realpath in Hrun.
  destruct (joinrealpath _ _ _ _ _) as [[path ok] seen].
  destruct ok; [|done]. injection Hrun as <- <-. simpl.
  split; [done|apply normpath_no_dotdot].
Qed.

(** The guard lets a contained path through, as it is. *)
Lemma resolve_workspace_path_inside file w n :
  Path_resolve (absolute_form file) w = (Ok n, w) →
  contained_in WORKSPACE_ROOT n →
  resolve_workspace_path file w = (Ok n, w).
Proof.
  intros Hres Hin. unfold resolve_workspace_path.
  fold (absolute_form file). rewrite (bind_run_ok _ _ _ _ _ Hres).
  destruct (Path_relative_to_ok _ _ Hin) as [rel Hrel].
  rewrite Hrel. reflexivity.
Qed.

(** The guard stops every other path with the path-escape message. *)
Lemma resolve_workspace_path_outside file w n :
  Path_resolve (absolute_form file) w = (Ok n, w) →
  ¬ contained_in WORKSPACE_ROOT n →
  ∃ guidance w',
    path_guidance w = (Ok guidance, w') ∧
    resolve_workspace_path file w =
      (Raise (ValueError ("Path " +:+ Path_str n +:+ " is outside workspace root "
                            +:+ Path_str WORKSPACE_ROOT +:+ ". " +:+ guidance)), w').
Proof.
  intros Hres Hout. unfold resolve_workspace_path.
  fold (absolute_form file). rewrite (bind_run_ok _ _ _ _ _ Hres).
  destruct (Path_relative_to_fails _ _ Hout) as [msg Hrel].
  destruct (returns_path_guidance w) as (guidance & w' & Hg).
  exists guidance, w'. split; [done|].
  rewrite Hrel. apply bind_run_raise.
  erewrite try_except_caught; [|reflexivity|reflexivity].
  by rewrite (bind_run_ok _ _ _ _ _ Hg).
Qed.

(** What the guard returns is what [resolve] gave, and it is contained. *)
Lemma resolve_workspace_path_ok file w p w' :
  resolve_workspace_path file w = (Ok p, w') →
  w' = w ∧ Path_resolve (absolute_form file) w = (Ok p, w) ∧
  contained_in WORKSPACE_ROOT p.
Proof.
  intros Hrun.
  destruct (Path_resolve (absolute_form file) w) as [[n|e] w1] eqn:Hres.
  - pose proof (Path_resolve_world _ _ _ _ Hres) as ->.
    destruct (Path_is_relative_to n WORKSPACE_ROOT) eqn:Hrel;
      [apply Path_is_relative_to_spec in Hrel as Hin
      |assert (¬ contained_in WORKSPACE_ROOT n) as Hout
         by (rewrite <- Path_is_relative_to_spec; congruence)].
    + rewrite (resolve_workspace_path_inside _ _ _ Hres Hin) in Hrun.
      by injection Hrun as <- <-.
    + destruct (resolve_workspace_path_outside _ _ _ Hres Hout) as (g & w2 & _ & E).
      congruence.
  - unfold resolve_workspace_path in Hrun. fold (absolute_form file) in Hrun.
    by rewrite (bind_run_raise _ _ _ _ _ Hres) in Hrun.
Qed.

End Guard.

(** ** Relative inputs *)

Lemma append_nil_l (s : string) : "" +:+ s = s.
Proof. reflexivity. Qed.

Lemma append_cons c (a b : string) : String c a +:+ b = String c (a +:+ b).
Proof. reflexivity. Qed.

Lemma append_nil_r (s : string) : s +:+ "" = s.
Proof. induction s as [|c s IH]; [done|]. by rewrite append_cons, IH. Qed.

Lemma append_assoc (a b c : string) : (a +:+ b) +:+ c = a +:+ (b +:+ c).
Proof. induction a as [|x a IH]; [done|]. by rewrite !append_cons, IH. Qed.

(** A relative string parses to a path without root whose segments are
    the kept pieces of the string. *)
Lemma Path_relative_parts p :
  Path_is_absolute (Path p) = false →
  Path p = {| _root := ""; _tail := filter (λ x, keep_segment x = true) (str_split p) |}
  ∧ (p = "" ∨ ∃ c r, p = String c r ∧ c ≠ sep).
Proof.
  destruct p as [|c r]; [intros _; split; [done|by left]|].
  destruct (decide (c = sep)) as [->|Hc].
  - intros Habs. exfalso. revert Habs. unfold Path, splitroot, sep.
    destruct r as [|c1 r1]; [done|].
    destruct (decide (c1 = "/"%char)) as [->|Hc1].
    + destruct r1 as [|c2 r2]; [done|].
      destruct (decide (c2 = "/"%char)) as [->|Hc2]; [done|].
      destruct c2 as [[] [] [] [] [] [] [] []]; done.
    + destruct c1 as [[] [] [] [] [] [] [] []]; done.
  - intros _. split; [|right; eauto].
    unfold Path, splitroot.
    destruct c as [[] [] [] [] [] [] [] []]; done.
Qed.

Lemma clean_segment_head x :
  clean_segment x → ∃ c r, x = String c r ∧ c ≠ sep.
Proof.
  intros [Hk Hs]. destruct x as [|c r]; [done|].
  exists c, r. split; [done|]. intros ->. done.
Qed.

Lemma Forall_clean_no_sep xs :
  Forall clean_segment xs → Forall (λ x, str_contains_char sep x = false) xs.
Proof. intros HF. eapply Forall_impl; [exact HF|]. by intros x [_ ?]. Qed.

Lemma str_join_cons_head x xs :
  ∃ r, str_join "/" (x :: xs) = x +:+ r.
Proof.
  destruct xs as [|y ys].
  - exists "". simpl. by rewrite append_nil_r.
  - eexists. reflexivity.
Qed.

(** Parsing the workspace root, a separator and a relative string gives
    the root's segments followed by the string's. *)
Lemma Path_root_sep_relative root p :
  resolved_form root →
  Path_is_absolute (Path p) = false →
  Path (Path_str root +:+ "/" +:+ p) =
    {| _root := match _tail root with [] => "//" | _ => "/" end;
       _tail := _tail root ++ _tail (Path p) |}.
Proof.
  intros [Hroot Hclean] Hrel.
  destruct (Path_relative_parts p Hrel) as [Hp Hhead]. rewrite Hp. simpl.
  destruct root as [rt tl]. simpl in *. subst rt.
  destruct tl as [|x xs].
  - unfold Path_str. simpl.
    destruct Hhead as [->|(c & r & -> & Hc)]; [done|].
    unfold Path, splitroot.
    destruct c as [[] [] [] [] [] [] [] []]; done.
  - apply Forall_cons in Hclean as Hx. destruct Hx as [Hx _].
    destruct (clean_segment_head x Hx) as (c & r & -> & Hc).
    pose proof (str_split_join (String c r :: xs) ltac:(done)
                  (Forall_clean_no_sep _ Hclean)) as Hsplit.
    unfold Path_str. simpl _root. simpl _tail.
    destruct (str_join_cons_head (String c r) xs) as [rest Hjoin].
    assert ("/" +:+ str_join "/" (String c r :: xs)
            = String sep (str_join "/" (String c r :: xs))) as -> by done.
    change ((String sep (str_join "/" (String c r :: xs))) +:+ "/" +:+ p)
      with (String sep (str_join "/" (String c r :: xs) +:+ String sep p)).
    assert (Path (String sep (str_join "/" (String c r :: xs) +:+ String sep p))
            = {| _root := "/";
                 _tail := filter (λ x, keep_segment x = true)
                            (str_split (str_join "/" (String c r :: xs) +:+ String sep p)) |})
      as ->.
    { rewrite Hjoin. simpl. unfold Path, splitroot.
      destruct c as [[] [] [] [] [] [] [] []]; done. }
    rewrite str_split_app_sep, Hsplit, filter_app, (filter_keep_clean _ Hclean). done.
Qed.

(** ** Walking a path *)

Lemma joinrealpath_nil depth fs path seen :
  joinrealpath depth fs path [] seen = (path, true, seen).
Proof. by destruct depth. Qed.

Lemma joinrealpath_skip depth fs path name rest seen :
  name = "" ∨ name = "." →
  joinrealpath depth fs path (name :: rest) seen = joinrealpath depth fs path rest seen.
Proof.
  intros Hn. destruct depth; simpl; by rewrite (bool_decide_eq_true_2 _ Hn).
Qed.

Lemma joinrealpath_up depth fs path rest seen :
  joinrealpath depth fs path (".." :: rest) seen
  = joinrealpath depth fs (removelast path) rest seen.
Proof. by destruct depth. Qed.

(** A name that is no link is appended and the walk goes on. *)
Lemma joinrealpath_plain depth fs path name rest seen :
  name ≠ "" → name ≠ "." → name ≠ ".." →
  not_a_link fs (path ++ [name]) →
  joinrealpath depth fs path (name :: rest) seen
  = joinrealpath depth fs (path ++ [name]) rest seen.
Proof.
  intros H1 H2 H3 Hl.
  assert (¬ (name = "" ∨ name = ".")) as H12 by tauto.
  destruct depth; simpl;
    rewrite (bool_decide_eq_false_2 _ H12), (bool_decide_eq_false_2 _ H3);
    destruct (os_lstat fs (path ++ [name])) as [[| |target]|] eqn:E;
    try done; by destruct (Hl target).
Qed.

Lemma Path_str_absolute tl :
  Path_str {| _root := "/"; _tail := tl |} = String sep (str_join "/" tl).
Proof. reflexivity. Qed.

Lemma Path_str_double tl :
  Path_str {| _root := "//"; _tail := tl |} = String sep (String sep (str_join "/" tl)).
Proof. reflexivity. Qed.

Lemma isabs_sep s : isabs (String sep s) = true.
Proof. unfold isabs. simpl. by destruct s. Qed.

(** [resolve] does not tell a root of two slashes from a root of one. *)
Lemma Path_resolve_double_slash tl w :
  Path_resolve {| _root := "//"; _tail := tl |} w
  = Path_resolve {| _root := "/"; _tail := tl |} w.
Proof.
  unfold Path_resolve, read_world, realpath.
  rewrite Path_str_absolute, Path_str_double.
  change (str_split (String sep (String sep (str_join "/" tl))))
    with ("" :: str_split (String sep (str_join "/" tl))).
  rewrite !isabs_sep.
  rewrite joinrealpath_skip by (by left).
  reflexivity.
Qed.

(** ** The tools *)

Lemma Path_exists_run p w :
  Path_exists p w = (Ok (stat_exists (w_fs w) (w_cwd w) p), add_event w (EvStat p)).
Proof. reflexivity. Qed.

Lemma spawned_add_stat w p :
  spawned (w_trace (add_event w (EvStat p))) = spawned (w_trace w).
Proof. simpl. rewrite spawned_app. simpl. apply app_nil_r. Qed.


Lemma splitroot_cases s :
  (splitroot s).1 = "" ∨ (splitroot s).1 = "/" ∨ (splitroot s).1 = "//".
Proof.
  destruct s as [|c r]; [by left|].
  destruct (decide (c = sep)) as [->|Hc];
    [|left; destruct c as [[] [] [] [] [] [] [] []]; done].
  destruct r as [|c1 r1]; [by right; left|].
  destruct (decide (c1 = sep)) as [->|Hc1];
    [|right; left; destruct c1 as [[] [] [] [] [] [] [] []]; done].
  destruct r1 as [|c2 r2]; [by right; right|].
  destruct (decide (c2 = sep)) as [->|Hc2]; [by right; left|].
  right; right. destruct c2 as [[] [] [] [] [] [] [] []]; done.
Qed.

Lemma Path_root_cases s :
  _root (Path s) = "" ∨ _root (Path s) = "/" ∨ _root (Path s) = "//".
Proof.
  destruct s as [|c r]; [by left|].
  pose proof (splitroot_cases (String c r)) as Hs.
  unfold Path. by destruct (splitroot (String c r)).
Qed.



Section Tools.
Context `{Host}.

(** The [try] block the three tools open with. *)
Lemma guarded_resolve_ok file w p w1 :
  resolve_workspace_path file w = (Ok p, w1) →
  try_except
    (resolve_workspace_path file ≫= λ abs_path, mret (inr abs_path))
    (except_ValueError (λ exc, mret (inl ("ERROR: " +:+ exn_str exc)))) w
  = (Ok (inr p), w1).
Proof. intros Hres. apply try_except_ok. by rewrite (bind_run_ok _ _ _ _ _ Hres). Qed.

Lemma guarded_resolve_value_error file w msg w1 :
  resolve_workspace_path file w = (Raise (ValueError msg), w1) →
  try_except
    (resolve_workspace_path file ≫= λ abs_path, mret (inr abs_path))
    (except_ValueError (λ exc, mret (inl ("ERROR: " +:+ exn_str exc)))) w
  = (Ok (inl ("ERROR: " +:+ msg)), w1).
Proof.
  intros Hres. etrans.
  - eapply try_except_caught;
      [by rewrite (bind_run_raise _ _ _ _ _ Hres)|reflexivity].
  - reflexivity.
Qed.


(** [build_latex] on a file that is not there. *)
Lemma build_latex_not_found file engine w p w1 :
  resolve_workspace_path file w = (Ok p, w1) →
  stat_exists (w_fs w1) (w_cwd w1) p = false →
  ∃ guidance w',
    path_guidance (add_event w1 (EvStat p)) = (Ok guidance, w') ∧
    build_latex file engine w
    = (Ok ("ERROR: File not found: " +:+ Path_str p +:+ nl +:+ guidance), w').
Proof.
  intros Hres Hmissing.
  destruct (returns_path_guidance (add_event w1 (EvStat p))) as (g & w' & Hg).
  exists g, w'. split; [done|]. unfold build_latex.
  rewrite bind_run, (guarded_resolve_ok _ _ _ _ Hres).
  rewrite bind_run, Path_exists_run, Hmissing.
  change (negb false) with true. cbv iota.
  by rewrite (bind_run_ok _ _ _ _ _ Hg).
Qed.

(** *** The executor *)

Lemma subprocess_communicate_run cmd cwd w :
  subprocess_communicate cmd cwd w =
  match create_subprocess_shell cmd (Path_str cwd) (w_fs w) with
  | inl e => (Raise e, add_event w (EvSpawn cmd cwd))
  | inr (fs', out) =>
      (Ok out, {| w_fs := fs'; w_cwd := w_cwd w; w_trace := w_trace w ++ [EvSpawn cmd cwd] |})
  end.
Proof.
  unfold subprocess_communicate. rewrite bind_run. unfold log_event. simpl.
  by destruct (create_subprocess_shell _ _ _) as [e|[fs' out]].
Qed.

(** The executor starts its command once, in the directory it was given,
    whatever comes of it. *)
Lemma run_command_async_spawned cmd cwd w r w' :
  run_command_async cmd cwd w = (r, w') →
  spawned (w_trace w') = spawned (w_trace w) ++ [(cmd, cwd)] ∧ w_cwd w' = w_cwd w.
Proof.
  unfold run_command_async. rewrite bind_run, subprocess_communicate_run.
  destruct (create_subprocess_shell _ _ _) as [e|[fs' [[code stdout] stderr]]].
  - intros [= <- <-]. simpl. by rewrite spawned_app.
  - intros Hrun.
    lazymatch type of Hrun with
    | ?m _ = _ => assert (quiet m) as Hq
    end.
    { apply quiet_bind; [destruct stdout; eauto with quiet|]. intros out.
      apply quiet_bind; [destruct stderr; eauto with quiet|]. intros err.
      apply quiet_ret. }
    apply Hq in Hrun as (_ & Hcwd & Hsp). simpl in *.
    by rewrite Hsp, spawned_app.
Qed.

Lemma bytes_decode_nil : bytes_decode [] = inr "".
Proof. reflexivity. Qed.

Lemma decode_or_empty (bs : list byte) (text : string) (w : World) :
  bytes_decode bs = inr text →
  (match bs with
   | [] => mret ""
   | _ => lift_sum (bytes_decode bs)
   end : M string) w = (Ok text, w).
Proof.
  intros Hd. destruct bs as [|b bs].
  - rewrite bytes_decode_nil in Hd. by injection Hd as <-.
  - by rewrite Hd.
Qed.

(** The executor's transcript when the child ran and what it wrote is
    UTF-8. *)
Lemma run_command_async_ok cmd cwd w fs' code stdout stderr out err :
  create_subprocess_shell cmd (Path_str cwd) (w_fs w) = inr (fs', (code, stdout, stderr)) →
  bytes_decode stdout = inr out →
  bytes_decode stderr = inr err →
  run_command_async cmd cwd w
  = (Ok (transcript cmd out err code),
     {| w_fs := fs'; w_cwd := w_cwd w; w_trace := w_trace w ++ [EvSpawn cmd cwd] |}).
Proof.
  intros Hchild Hout Herr. unfold run_command_async.
  rewrite bind_run, subprocess_communicate_run, Hchild.
  rewrite bind_run, (decode_or_empty _ _ _ Hout).
  rewrite bind_run, (decode_or_empty _ _ _ Herr).
  unfold transcript. cbv [mret M_ret]. f_equal. f_equal.
  destruct (bool_decide (code ≠ 0%Z)); rewrite ?append_assoc, ?append_nil_r; reflexivity.
Qed.

(** *** [build_latex] up to the command *)

Lemma build_latex_runs file engine flag w p w1 :
  engine_flag engine flag →
  resolve_workspace_path file w = (Ok p, w1) →
  stat_exists (w_fs w1) (w_cwd w1) p = true →
  build_latex file engine w =
  (run_command_async (latexmk_build_command flag (Path_name p)) (Path_parent p) ≫= λ log,
   Path_exists (Path_truediv (Path_parent p) (Path_stem p +:+ ".pdf")) ≫= λ pdf_exists : bool,
   mret (build_report (Path_parent p) (latexmk_build_command flag (Path_name p))
           (if pdf_exists
            then Path_str (Path_truediv (Path_parent p) (Path_stem p +:+ ".pdf"))
            else "NO")
           log))
    (add_event w1 (EvStat p)).
Proof.
  intros Hflag Hres Hfound. unfold build_latex.
  rewrite bind_run, (guarded_resolve_ok _ _ _ _ Hres).
  rewrite bind_run, Path_exists_run, Hfound.
  change (negb true) with false. cbv iota.
  destruct Hflag; reflexivity.
Qed.

End Tools.

Section ToolLemmas.
Context `{Host}.

(** *** [clean_latex] up to the command *)

Lemma clean_latex_runs file mode flag w p w1 :
  mode_flag mode flag →
  resolve_workspace_path file w = (Ok p, w1) →
  stat_exists (w_fs w1) (w_cwd w1) p = true →
  clean_latex file mode w =
  (run_command_async (latexmk_clean_command flag (Path_name p)) (Path_parent p) ≫= λ log,
   mret ("clean_latex finished." +:+ nl
         +:+ "Mode: " +:+ default "aux" mode +:+ nl
         +:+ "Command: " +:+ latexmk_clean_command flag (Path_name p) +:+ nl +:+ nl
         +:+ "--- Latexmk log ---" +:+ nl +:+ log))
    (add_event w1 (EvStat p)).
Proof.
  intros Hflag Hres Hfound. unfold clean_latex.
  rewrite bind_run, (guarded_resolve_ok _ _ _ _ Hres).
  rewrite bind_run, Path_exists_run, Hfound.
  change (negb true) with false. cbv iota.
  destruct Hflag; reflexivity.
Qed.

(** A tool that got as far as its command has started that command once,
    and nothing else. *)
Lemma spawned_after_command {A} cmd cwd (rest : string → M A) w r w' :
  (∀ log, quiet (rest log)) →
  (run_command_async cmd cwd ≫= rest) w = (r, w') →
  spawned (w_trace w') = spawned (w_trace w) ++ [(cmd, cwd)].
Proof.
  intros Hrest. rewrite bind_run.
  destruct (run_command_async cmd cwd w) as [[log|e] w2] eqn:Hrun;
    apply run_command_async_spawned in Hrun as [Hsp _].
  - intros Hrun. apply Hrest in Hrun as (_ & _ & Hsp'). congruence.
  - by intros [= <- <-].
Qed.


End ToolLemmas.

(** *** A walk that meets no link *)




(** ** What [resolve] returns *)

Lemma str_split_no_sep s : Forall (λ x, str_contains_char sep x = false) (str_split s).
Proof.
  induction s as [|c s IH]; simpl; [by repeat constructor|].
  destruct (Ascii.eqb c sep) eqn:Hc; [by constructor|].
  destruct (str_split s) as [|h t]; [by repeat constructor; simpl; rewrite Hc|].
  apply Forall_cons in IH as [Hh Ht]. constructor; [|done].
  simpl. by rewrite Hc, Hh.
Qed.

Lemma Forall_removelast {A} (P : A → Prop) (xs : list A) :
  Forall P xs → Forall P (removelast xs).
Proof.
  intros HF. destruct xs as [|x xs] using rev_ind; [done|].
  rewrite removelast_last. by apply Forall_app in HF as [? _].
Qed.

(** The four ways the walk takes a link. *)
Lemma joinrealpath_link_known depth fs path name rest seen target resolved :
  name ≠ "" → name ≠ "." → name ≠ ".." →
  os_lstat fs (path ++ [name]) = Some (Symlink target) →
  seen !! (path ++ [name]) = Some (Some resolved) →
  joinrealpath depth fs path (name :: rest) seen = joinrealpath depth fs resolved rest seen.
Proof.
  intros H1 H2 H3 Hl Hs.
  assert (¬ (name = "" ∨ name = ".")) as H12 by tauto.
  destruct depth; simpl;
    by rewrite (bool_decide_eq_false_2 _ H12), (bool_decide_eq_false_2 _ H3), Hl, Hs.
Qed.

Lemma joinrealpath_link_loop depth fs path name rest seen target :
  name ≠ "" → name ≠ "." → name ≠ ".." →
  os_lstat fs (path ++ [name]) = Some (Symlink target) →
  seen !! (path ++ [name]) = Some None →
  joinrealpath depth fs path (name :: rest) seen = ((path ++ [name]) ++ rest, false, seen).
Proof.
  intros H1 H2 H3 Hl Hs.
  assert (¬ (name = "" ∨ name = ".")) as H12 by tauto.
  destruct depth; simpl;
    by rewrite (bool_decide_eq_false_2 _ H12), (bool_decide_eq_false_2 _ H3), Hl, Hs.
Qed.

Lemma joinrealpath_link_deep fs path name rest seen target :
  name ≠ "" → name ≠ "." → name ≠ ".." →
  os_lstat fs (path ++ [name]) = Some (Symlink target) →
  seen !! (path ++ [name]) = None →
  joinrealpath 0 fs path (name :: rest) seen = ((path ++ [name]) ++ rest, false, seen).
Proof.
  intros H1 H2 H3 Hl Hs.
  assert (¬ (name = "" ∨ name = ".")) as H12 by tauto.
  simpl. by rewrite (bool_decide_eq_false_2 _ H12), (bool_decide_eq_false_2 _ H3), Hl, Hs.
Qed.

Lemma joinrealpath_link_follow depth fs path name rest seen target :
  name ≠ "" → name ≠ "." → name ≠ ".." →
  os_lstat fs (path ++ [name]) = Some (Symlink target) →
  seen !! (path ++ [name]) = None →
  joinrealpath (S depth) fs path (name :: rest) seen =
  let '(resolved, ok, seen') :=
    joinrealpath depth fs (if isabs target then [] else path) (str_split target)
      (<[path ++ [name] := None]> seen) in
  if ok then joinrealpath (S depth) fs resolved rest (<[path ++ [name] := Some resolved]> seen')
  else (resolved ++ rest, false, seen').
Proof.
  intros H1 H2 H3 Hl Hs.
  assert (¬ (name = "" ∨ name = ".")) as H12 by tauto.
  simpl. rewrite (bool_decide_eq_false_2 _ H12), (bool_decide_eq_false_2 _ H3), Hl, Hs.
  reflexivity.
Qed.

(** A walk that ends well ends at a location made of entry names, and
    so do the links it has followed. *)
Lemma joinrealpath_names depth fs :
  ∀ rest path seen path' seen',
    Forall (λ x, str_contains_char sep x = false) rest →
    Forall entry_name path →
    seen_names seen →
    joinrealpath depth fs path rest seen = (path', true, seen') →
    Forall entry_name path' ∧ seen_names seen'.
Proof.
  induction depth as [depth IHd] using lt_wf_ind.
  induction rest as [|name rest IHr]; intros path seen path' seen' Hrest Hpath Hseen Hrun.
  { rewrite joinrealpath_nil in Hrun. by injection Hrun as <- <-. }
  apply Forall_cons in Hrest as [Hname Hrest].
  destruct (decide (name = "" ∨ name = ".")) as [Hskip|Hskip].
  { rewrite joinrealpath_skip in Hrun by done. by eapply IHr. }
  destruct (decide (name = "..")) as [->|Hup].
  { rewrite joinrealpath_up in Hrun.
    eapply IHr; [done|by apply Forall_removelast|done|exact Hrun]. }
  assert (name ≠ "" ∧ name ≠ ".") as [Hn1 Hn2] by tauto.
  assert (Forall entry_name (path ++ [name])) as Hnew.
  { apply Forall_app. split; [done|]. by repeat constructor. }
  destruct (os_lstat fs (path ++ [name])) as [entry|] eqn:Hl.
  2: { rewrite joinrealpath_plain in Hrun
         by (try done; intros t; rewrite Hl; discriminate).
       by eapply IHr. }
  destruct entry as [content| |target].
  1, 2: rewrite joinrealpath_plain in Hrun
          by (try done; intros t; rewrite Hl; discriminate);
        by eapply IHr.
  destruct (seen !! (path ++ [name])) as [[resolved|]|] eqn:Hs.
  - rewrite (joinrealpath_link_known _ _ _ _ _ _ _ _ Hn1 Hn2 Hup Hl Hs) in Hrun.
    eapply IHr; [done| |done|exact Hrun]. by eapply Hseen.
  - by rewrite (joinrealpath_link_loop _ _ _ _ _ _ _ Hn1 Hn2 Hup Hl Hs) in Hrun.
  - destruct depth as [|depth].
    { by rewrite (joinrealpath_link_deep _ _ _ _ _ _ Hn1 Hn2 Hup Hl Hs) in Hrun. }
    rewrite (joinrealpath_link_follow _ _ _ _ _ _ _ Hn1 Hn2 Hup Hl Hs) in Hrun.
    destruct (joinrealpath depth fs _ (str_split target) _)
      as [[resolved ok] seen1] eqn:Hlink.
    destruct ok; [|done].
    apply IHd in Hlink as [Hres Hseen1].
    + eapply IHr; [done|exact Hres| |exact Hrun].
      intros loc r. rewrite lookup_insert. case_decide; [by intros [= <-]|by apply Hseen1].
    + lia.
    + apply str_split_no_sep.
    + by destruct (isabs target).
    + intros loc r. rewrite lookup_insert. case_decide; [done|by apply Hseen].
Qed.

Lemma normpath_names_acc xs acc :
  Forall entry_name xs → foldl normpath_step acc xs = acc ++ xs.
Proof.
  revert acc. induction xs as [|x xs IH]; intros acc HF; simpl; [by rewrite app_nil_r|].
  apply Forall_cons in HF as [(H1 & H2 & H3 & _) HF].
  rewrite IH by done. unfold normpath_step.
  rewrite bool_decide_eq_false_2 by tauto. rewrite bool_decide_eq_false_2 by done.
  by rewrite <- app_assoc.
Qed.

(** A location made of entry names is its own normal form. *)
Lemma normpath_names xs : Forall entry_name xs → normpath xs = xs.
Proof. apply normpath_names_acc. Qed.

(** [resolve] of a path that starts at the root directory returns a path
    made of entry names. *)
Lemma Path_resolve_names p w n w' :
  _root p = "/" ∨ _root p = "//" →
  Path_resolve p w = (Ok n, w') →
  _root n = "/" ∧ Forall entry_name (_tail n).
Proof.
  intros Hroot. unfold Path_resolve, read_world, realpath. intros Hrun.
  destruct (str_contains_char "000" (Path_str p)); [done|].
  assert (isabs (Path_str p) = true) as Habs.
  { unfold Path_str. destruct Hroot as [-> | ->]; apply isabs_sep. }
  rewrite Habs in Hrun.
  destruct (joinrealpath _ _ _ _ _) as [[path ok] seen] eqn:Hwalk.
  destruct ok; [|done]. injection Hrun as <- <-. simpl. split; [done|].
  apply joinrealpath_names in Hwalk as [Hpath _];
    [by rewrite normpath_names|apply str_split_no_sep|done|done].
Qed.

Lemma absolute_form_rooted `{Host} file :
  _root WORKSPACE_ROOT = "/" →
  _root (absolute_form file) = "/" ∨ _root (absolute_form file) = "//".
Proof.
  intros Hroot. unfold absolute_form, Path_joinpath, Path_is_absolute.
  destruct (Path_root_cases file) as [E|[E|E]]; rewrite E; simpl; auto.
Qed.


(** *** A file system without links *)

Lemma os_lstat_link_free fs loc : link_free fs → not_a_link fs loc.
Proof.
  intros Hfree target. destruct loc as [|x loc]; [done|]. apply Hfree.
Qed.

(** Without links the walk is the normalization of the text. *)
Lemma joinrealpath_link_free depth fs rest path seen :
  link_free fs →
  joinrealpath depth fs path rest seen = (foldl normpath_step path rest, true, seen).
Proof.
  intros Hfree. revert path.
  induction rest as [|name rest IH]; intros path; [apply joinrealpath_nil|].
  simpl foldl. unfold normpath_step at 2.
  destruct (decide (name = "" ∨ name = ".")) as [Hskip|Hskip].
  { rewrite joinrealpath_skip, (bool_decide_eq_true_2 _ Hskip) by done. apply IH. }
  rewrite (bool_decide_eq_false_2 _ Hskip).
  destruct (decide (name = "..")) as [->|Hup].
  { rewrite joinrealpath_up. apply IH. }
  rewrite (bool_decide_eq_false_2 _ Hup).
  rewrite joinrealpath_plain by (try tauto; by apply os_lstat_link_free). apply IH.
Qed.

Lemma normpath_entry_names_acc comps acc :
  Forall (λ x, str_contains_char sep x = false) comps →
  Forall entry_name acc →
  Forall entry_name (foldl normpath_step acc comps).
Proof.
  revert acc. induction comps as [|c comps IH]; intros acc Hc Hacc; simpl; [done|].
  apply Forall_cons in Hc as [Hc Hcomps]. apply IH; [done|]. unfold normpath_step.
  destruct (bool_decide (c = "" ∨ c = ".")) eqn:E1; [done|].
  destruct (bool_decide (c = "..")) eqn:E2; [by apply Forall_removelast|].
  apply bool_decide_eq_false in E1, E2.
  apply Forall_app. split; [done|]. repeat constructor; tauto.
Qed.

(** The normal form of a split text is made of entry names. *)
Lemma normpath_entry_names s : Forall entry_name (normpath (str_split s)).
Proof. apply normpath_entry_names_acc; [apply str_split_no_sep|done]. Qed.

(** On a file system without links, [resolve] of a path that starts at
    the root directory and has no NUL byte returns, and what it returns is
    the normal form of the path's text. *)
Lemma Path_resolve_link_free p w :
  link_free (w_fs w) →
  _root p = "/" ∨ _root p = "//" →
  str_contains_char "000" (Path_str p) = false →
  Path_resolve p w = (Ok {| _root := "/"; _tail := normpath (str_split (Path_str p)) |}, w).
Proof.
  intros Hfree Hroot Hnul. unfold Path_resolve, read_world, realpath.
  rewrite Hnul.
  assert (isabs (Path_str p) = true) as ->.
  { unfold Path_str. destruct Hroot as [-> | ->]; apply isabs_sep. }
  rewrite joinrealpath_link_free by done.
  fold (normpath (str_split (Path_str p))).
  by rewrite (normpath_names _ (normpath_entry_names _)).
Qed.

(** *** The depth given to the walk is enough *)

Lemma os_lstat_snoc (fs : FS) path name :
  os_lstat fs (path ++ [name]) = fs !! (path ++ [name]).
Proof. unfold os_lstat. destruct (path ++ [name]) eqn:E; [|done]. by destruct path. Qed.

Lemma links_unseen_mono (fs : FS) (seen seen' : gmap (list string) (option (list string))) :
  (∀ k, is_Some (seen !! k) → is_Some (seen' !! k)) →
  links_unseen fs seen' ≤ links_unseen fs seen.
Proof.
  intros Hmono. apply map_subseteq_size, map_filter_subseteq_ext.
  intros k entry _ [Hlink Hnone]. split; [done|]. simpl in *.
  destruct (seen !! k) eqn:E; [|done].
  destruct (Hmono k) as [v Hv]; [by eexists|]. congruence.
Qed.

Lemma links_unseen_insert (fs : FS) (seen : gmap (list string) (option (list string))) k v target :
  fs !! k = Some (Symlink target) →
  seen !! k = None →
  links_unseen fs (<[k := v]> seen) < links_unseen fs seen.
Proof.
  intros Hlink Hnone. apply map_subset_size, map_subset_alt. split.
  - apply map_filter_subseteq_ext. intros i entry _ [Hl Hn]. split; [done|]. simpl in *.
    by apply lookup_insert_None in Hn as [? _].
  - exists k. split.
    + apply map_lookup_filter_None. right. intros entry _ [_ Hn]. simpl in Hn.
      by rewrite lookup_insert_eq in Hn.
    + exists (Symlink target). by apply map_lookup_filter_Some.
Qed.

(** The walk only adds to the links it has met. *)
Lemma joinrealpath_seen_mono depth fs :
  ∀ rest path seen path' ok seen',
    joinrealpath depth fs path rest seen = (path', ok, seen') →
    ∀ k, is_Some (seen !! k) → is_Some (seen' !! k).
Proof.
  induction depth as [depth IHd] using lt_wf_ind.
  induction rest as [|name rest IHr]; intros path seen path' ok seen' Hrun.
  { rewrite joinrealpath_nil in Hrun. by injection Hrun as <- <- <-. }
  destruct (decide (name = "" ∨ name = ".")) as [Hskip|Hskip].
  { rewrite joinrealpath_skip in Hrun by done. by eapply IHr. }
  destruct (decide (name = "..")) as [->|Hup].
  { rewrite joinrealpath_up in Hrun. by eapply IHr. }
  assert (name ≠ "" ∧ name ≠ ".") as [Hn1 Hn2] by tauto.
  destruct (os_lstat fs (path ++ [name])) as [entry|] eqn:Hl.
  2: { rewrite joinrealpath_plain in Hrun
         by (try done; intros t; rewrite Hl; discriminate).
       by eapply IHr. }
  destruct entry as [content| |target].
  1, 2: rewrite joinrealpath_plain in Hrun
          by (try done; intros t; rewrite Hl; discriminate);
        by eapply IHr.
  destruct (seen !! (path ++ [name])) as [[resolved|]|] eqn:Hs.
  - rewrite (joinrealpath_link_known _ _ _ _ _ _ _ _ Hn1 Hn2 Hup Hl Hs) in Hrun.
    by eapply IHr.
  - rewrite (joinrealpath_link_loop _ _ _ _ _ _ _ Hn1 Hn2 Hup Hl Hs) in Hrun.
    by injection Hrun as <- <- <-.
  - destruct depth as [|depth].
    { rewrite (joinrealpath_link_deep _ _ _ _ _ _ Hn1 Hn2 Hup Hl Hs) in Hrun.
      by injection Hrun as <- <- <-. }
    rewrite (joinrealpath_link_follow _ _ _ _ _ _ _ Hn1 Hn2 Hup Hl Hs) in Hrun.
    destruct (joinrealpath depth fs _ (str_split target) _)
      as [[resolved ok1] seen1] eqn:Hlink.
    assert (∀ k, is_Some (seen !! k) → is_Some (seen1 !! k)) as Hstep.
    { intros k Hk. eapply IHd; [|exact Hlink|]; [lia|].
      rewrite lookup_insert. by case_decide. }
    destruct ok1.
    + intros k Hk. eapply IHr; [exact Hrun|].
      rewrite lookup_insert. case_decide; [done|by apply Hstep].
    + injection Hrun as <- <- <-. exact Hstep.
Qed.

(** With at least as much depth as there are links not yet met, one more
    level changes nothing: the walk never stops for want of depth. *)
Lemma joinrealpath_depth_enough fs :
  ∀ depth rest path seen,
    links_unseen fs seen ≤ depth →
    joinrealpath depth fs path rest seen = joinrealpath (S depth) fs path rest seen.
Proof.
  induction depth as [depth IHd] using lt_wf_ind.
  induction rest as [|name rest IHr]; intros path seen Hdepth.
  { by rewrite !joinrealpath_nil. }
  destruct (decide (name = "" ∨ name = ".")) as [Hskip|Hskip].
  { rewrite !joinrealpath_skip by done. by apply IHr. }
  destruct (decide (name = "..")) as [->|Hup].
  { rewrite !joinrealpath_up. by apply IHr. }
  assert (name ≠ "" ∧ name ≠ ".") as [Hn1 Hn2] by tauto.
  destruct (os_lstat fs (path ++ [name])) as [entry|] eqn:Hl.
  2: { rewrite !joinrealpath_plain by (try done; intros t; rewrite Hl; discriminate).
       by apply IHr. }
  destruct entry as [content| |target].
  1, 2: rewrite !joinrealpath_plain by (try done; intros t; rewrite Hl; discriminate);
        by apply IHr.
  destruct (seen !! (path ++ [name])) as [[resolved|]|] eqn:Hs.
  - rewrite !(joinrealpath_link_known _ _ _ _ _ _ _ _ Hn1 Hn2 Hup Hl Hs). by apply IHr.
  - by rewrite !(joinrealpath_link_loop _ _ _ _ _ _ _ Hn1 Hn2 Hup Hl Hs).
  - pose proof Hl as Hfs. rewrite os_lstat_snoc in Hfs.
    pose proof (links_unseen_insert fs seen _ None _ Hfs Hs) as Hless.
    destruct depth as [|depth]; [lia|].
    rewrite !(joinrealpath_link_follow _ _ _ _ _ _ _ Hn1 Hn2 Hup Hl Hs).
    rewrite <- (IHd depth) by lia.
    destruct (joinrealpath depth fs _ (str_split target) _)
      as [[resolved ok] seen1] eqn:Hlink.
    destruct ok; [|done].
    apply IHr. etrans; [|exact Hdepth].
    apply links_unseen_mono. intros k Hk.
    rewrite lookup_insert. case_decide; [done|].
    eapply joinrealpath_seen_mono; [exact Hlink|].
    rewrite lookup_insert. by case_decide.
Qed.

(** The depth [realpath] starts with is enough: any greater depth gives
    the same walk. *)
Lemma joinrealpath_depth_size (fs : FS) extra path rest :
  joinrealpath (size fs + extra) fs path rest ∅ = joinrealpath (size fs) fs path rest ∅.
Proof.
  induction extra as [|extra IH]; [by rewrite Nat.add_0_r|].
  rewrite Nat.add_succ_r, <- joinrealpath_depth_enough; [done|].
  unfold links_unseen. etrans; [apply map_size_filter|lia].
Qed.

(** ** Staying within the workspace *)


Section StaysWithin.
Context (root : PurePath).



Lemma stays_within_weaken {A} (m : M A) (post post' : A → Prop) :
  stays_within root m post → (∀ a, post a → post' a) → stays_within root m post'.
Proof.
  intros Hm Himp w r w' Hrun. destruct (Hm _ _ _ Hrun) as [Hev Hpost].
  split; [done|]. intros a Ha. by apply Himp, Hpost.
Qed.














End StaysWithin.

Lemma contained_in_refl root : contained_in root root.
Proof. split; [done|]. exists []. by rewrite app_nil_r. Qed.

Section ServerStaysWithin.
Context `{Host}.





End ServerStaysWithin.

(** *** Siblings of a path below the root *)









Section ToolsStayWithin.
Context `{Host}.

(** When the guard raises, the [try] block of a tool ends in the world the
    guard left, with a report or with the exception. *)
Lemma guarded_resolve_raise file w e w1 :
  resolve_workspace_path file w = (Raise e, w1) →
  try_except
    (resolve_workspace_path file ≫= λ abs_path, mret (inr abs_path))
    (except_ValueError (λ exc, mret (inl ("ERROR: " +:+ exn_str exc)))) w
  = (match e with
     | ValueError _ | UnicodeDecodeError _ => Ok (inl ("ERROR: " +:+ exn_str e))
     | _ => Raise e
     end, w1).
Proof.
  intros Hres. unfold try_except.
  rewrite (bind_run_raise _ _ _ _ _ Hres). by destruct e.
Qed.



End ToolsStayWithin.

(** What [resolve] returns has the form asked of the workspace root. *)
Lemma Path_resolve_resolved_form p w n w' :
  _root p = "/" ∨ _root p = "//" →
  Path_resolve p w = (Ok n, w') →
  resolved_form n.
Proof.
  intros Hroot Hres. destruct (Path_resolve_names _ _ _ _ Hroot Hres) as [Hr Hnames].
  split; [done|]. eapply Forall_impl; [exact Hnames|].
  intros x (H1 & H2 & _ & Hsep). split; [|done]. unfold keep_segment.
  by rewrite (proj2 (String.eqb_neq _ _) H1), (proj2 (String.eqb_neq _ _) H2).
Qed.

(** The sample file system has no links. *)
Lemma demo_fs_link_free : link_free demo_fs.
Proof.
  intros loc target Hl. apply elem_of_list_to_map_2 in Hl.
  repeat (apply elem_of_cons in Hl as [Hl|Hl]; [discriminate Hl|]).
  by apply elem_of_nil in Hl.
Qed.

(** ** The codec *)

(** A step of the decoder on pending input consumes at least one byte. *)
Lemma utf8_step_consumes bs :
  bs ≠ [] → match utf8_step bs with Good n | Bad n => 0 < n end.
Proof.
  destruct bs as [|b0 r]; [done|]. intros _. unfold utf8_step. cbv zeta.
  repeat
    match goal with
    | |- context [if ?c then _ else _] => destruct c
    | |- context [match ?l with [] => _ | _ :: _ => _ end] => destruct l
    end;
    simpl; lia.
Qed.

(** The length of the input is fuel enough for the decoder loop. *)
Lemma utf8_decode_loop_fuel ignore :
  ∀ fuel bs,
    length bs ≤ fuel →
    utf8_decode_loop ignore fuel bs = utf8_decode_loop ignore (S fuel) bs.
Proof.
  induction fuel as [|fuel IH]; intros bs Hlen.
  - destruct bs; [done|simpl in Hlen; lia].
  - destruct bs as [|b bs]; [done|].
    change (utf8_decode_loop ignore (S (S fuel)) (b :: bs))
      with (match utf8_step (Byte.to_N <$> b :: bs) with
            | Good n => (take n (b :: bs) ++.) <$> utf8_decode_loop ignore (S fuel) (drop n (b :: bs))
            | Bad n => if ignore then utf8_decode_loop ignore (S fuel) (drop n (b :: bs)) else None
            end).
    change (utf8_decode_loop ignore (S fuel) (b :: bs))
      with (match utf8_step (Byte.to_N <$> b :: bs) with
            | Good n => (take n (b :: bs) ++.) <$> utf8_decode_loop ignore fuel (drop n (b :: bs))
            | Bad n => if ignore then utf8_decode_loop ignore fuel (drop n (b :: bs)) else None
            end) at 1.
    assert (Byte.to_N <$> b :: bs ≠ []) as Hne by (rewrite fmap_cons; discriminate).
    pose proof (utf8_step_consumes _ Hne) as Hpos.
    destruct (utf8_step (Byte.to_N <$> b :: bs)) as [n|n];
      [|destruct ignore; [|done]];
      rewrite <- IH; try done;
      rewrite length_drop; simpl in *; lia.
Qed.

(** * The specification, claim by claim *)



(** C2 (the code departs from it): with the root [/workspaces], the
    input [.] passes the guard as the root itself.  [read_latex_log] then
    tests and reads [/workspaces.log], the parent directory's file, and
    returns its text; [build_latex] and [clean_latex] start their command
    in [/], and [build_latex] tests [/workspaces.pdf].  None of these
    paths is the workspace root or below it. *)
Theorem tools_leave_root_on_root_input :
  @resolve_workspace_path demo_host "." demo_world
  = (Ok {| _root := "/"; _tail := ["workspaces"] |}, demo_world)
  ∧ @read_latex_log demo_host "." demo_world
    = (Ok ("Log path: /workspaces.log" +:+ nl +:+ nl +:+ "hi"),
       {| w_fs := demo_fs; w_cwd := ["workspaces"];
          w_trace := [EvStat {| _root := "/"; _tail := ["workspaces.log"] |};
                      EvReadText {| _root := "/"; _tail := ["workspaces.log"] |}] |})
  ∧ w_trace (@build_latex demo_host "." None demo_world).2
    = [EvStat {| _root := "/"; _tail := ["workspaces"] |};
       EvSpawn ("latexmk -synctex=1 -interaction=nonstopmode -file-line-error -pdf "
                  +:+ dquote +:+ "workspaces" +:+ dquote)
               {| _root := "/"; _tail := [] |};
       EvStat {| _root := "/"; _tail := ["workspaces.pdf"] |}]
  ∧ w_trace (@clean_latex demo_host "." None demo_world).2
    = [EvStat {| _root := "/"; _tail := ["workspaces"] |};
       EvSpawn ("latexmk -c " +:+ dquote +:+ "workspaces" +:+ dquote)
               {| _root := "/"; _tail := [] |}]
  ∧ ¬ contained_in (@WORKSPACE_ROOT demo_host) {| _root := "/"; _tail := ["workspaces.log"] |}
  ∧ ¬ contained_in (@WORKSPACE_ROOT demo_host) {| _root := "/"; _tail := ["workspaces.pdf"] |}
  ∧ ¬ contained_in (@WORKSPACE_ROOT demo_host) {| _root := "/"; _tail := [] |}.
Proof.
  split_and!; try (vm_compute; reflexivity);
    intros [_ [below Hb]]; simpl in Hb; discriminate Hb.
Qed.

(** C3 (the code departs from it): a child that writes the byte [0xFF] to
    its standard output makes the executor raise [UnicodeDecodeError], and
    [build_latex] with it, where [read_latex_log]'s decoder would drop the
    byte. *)
Theorem run_command_async_decodes_strictly :
  @run_command_async latin1_host "latexmk -v" {| _root := "/"; _tail := ["workspaces"] |}
    demo_world
  = (Raise (UnicodeDecodeError "'utf-8' codec can't decode bytes"),
     {| w_fs := demo_fs; w_cwd := ["workspaces"];
        w_trace := [EvSpawn "latexmk -v" {| _root := "/"; _tail := ["workspaces"] |}] |})
  ∧ (@build_latex latin1_host "demo/main.tex" None demo_world).1
    = Raise (UnicodeDecodeError "'utf-8' codec can't decode bytes")
  ∧ bytes_decode_ignore [xff] = "".
Proof. split_and!; vm_compute; reflexivity. Qed.



(** C5: for an input that passes the guard and exists, [build_latex] starts
    exactly one command, [latexmk -synctex=1 -interaction=nonstopmode
    -file-line-error <flag> "<name>"] with the file's name in double quotes,
    in the directory that holds the file; the flag is [-pdf] for [pdflatex]
    and for the engine left out, [-pdfxe] for [xelatex], [-pdflua] for
    [lualatex]. *)
Theorem build_latex_command `{Host} (file : string) (engine : option string) (flag : string)
    (w : World) (p : PurePath) (w1 : World) :
  engine_flag engine flag →
  resolve_workspace_path file w = (Ok p, w1) →
  stat_exists (w_fs w1) (w_cwd w1) p = true →
  ∃ r w',
    build_latex file engine w = (r, w')
    ∧ spawned (w_trace w') =
        spawned (w_trace w)
        ++ [("latexmk -synctex=1 -interaction=nonstopmode -file-line-error "
               +:+ flag +:+ " " +:+ dquote +:+ Path_name p +:+ dquote,
             Path_parent p)].
Proof.
  intros Hflag Hres Hfound.
  rewrite (build_latex_runs _ _ _ _ _ _ Hflag Hres Hfound).
  destruct (resolve_workspace_path_ok _ _ _ _ Hres) as (-> & _ & _).
  match goal with |- ∃ r w', ?m ?w0 = _ ∧ _ => destruct (m w0) as [r w'] eqn:Hrun end.
  exists r, w'. split; [done|].
  apply spawned_after_command in Hrun.
  - by rewrite spawned_add_stat in Hrun.
  - intros log. apply quiet_bind; [apply quiet_Path_exists|]. intros ?. apply quiet_ret.
Qed.

(** [build_latex] on [demo/main.tex] with the engine left out. *)
Lemma build_latex_command_witness :
  engine_flag None "-pdf"
  ∧ @resolve_workspace_path demo_host "demo/main.tex" demo_world
    = (Ok {| _root := "/"; _tail := ["workspaces"; "demo"; "main.tex"] |}, demo_world)
  ∧ stat_exists demo_fs ["workspaces"]
      {| _root := "/"; _tail := ["workspaces"; "demo"; "main.tex"] |} = true
  ∧ ∃ r w',
      @build_latex demo_host "demo/main.tex" None demo_world = (r, w')
      ∧ spawned (w_trace w') =
          [("latexmk -synctex=1 -interaction=nonstopmode -file-line-error -pdf "
              +:+ dquote +:+ "main.tex" +:+ dquote,
            {| _root := "/"; _tail := ["workspaces"; "demo"] |})].
Proof.
  assert (@resolve_workspace_path demo_host "demo/main.tex" demo_world
          = (Ok {| _root := "/"; _tail := ["workspaces"; "demo"; "main.tex"] |}, demo_world))
    as Hres by (vm_compute; reflexivity).
  assert (stat_exists (w_fs demo_world) (w_cwd demo_world)
            {| _root := "/"; _tail := ["workspaces"; "demo"; "main.tex"] |} = true)
    as Hfound by (vm_compute; reflexivity).
  split_and!; [constructor|exact Hres|exact Hfound|].
  exact (@build_latex_command demo_host "demo/main.tex" None "-pdf" demo_world _ _
           engine_default Hres Hfound).
Defined.



(** C7: a cleaning that reaches its command starts exactly one,
    [latexmk <flag> "<name>"] in the directory that holds the file, with
    the deep-clean flag [-C] for the mode [all] and the light-clean flag
    [-c] for the mode [aux] and for the mode left out; the two command
    lines differ. *)
Theorem clean_latex_command `{Host} (file : string) (mode : option string) (flag : string)
    (w : World) (p : PurePath) (w1 : World) :
  mode_flag mode flag →
  resolve_workspace_path file w = (Ok p, w1) →
  stat_exists (w_fs w1) (w_cwd w1) p = true →
  (∃ r w',
     clean_latex file mode w = (r, w')
     ∧ spawned (w_trace w') =
         spawned (w_trace w)
         ++ [("latexmk " +:+ flag +:+ " " +:+ dquote +:+ Path_name p +:+ dquote,
              Path_parent p)])
  ∧ (mode = Some "all" → flag = "-C")
  ∧ (mode = Some "aux" ∨ mode = None → flag = "-c")
  ∧ "latexmk " +:+ "-C" +:+ " " +:+ dquote +:+ Path_name p +:+ dquote
    ≠ "latexmk " +:+ "-c" +:+ " " +:+ dquote +:+ Path_name p +:+ dquote.
Proof.
  intros Hflag Hres Hfound. split_and!.
  - rewrite (clean_latex_runs _ _ _ _ _ _ Hflag Hres Hfound).
    destruct (resolve_workspace_path_ok _ _ _ _ Hres) as (-> & _ & _).
    match goal with |- ∃ r w', ?m ?w0 = _ ∧ _ => destruct (m w0) as [r w'] eqn:Hrun end.
    exists r, w'. split; [done|].
    apply spawned_after_command in Hrun.
    + by rewrite spawned_add_stat in Hrun.
    + intros log. apply quiet_ret.
  - intros ->. by inversion Hflag.
  - intros [-> | ->]; by inversion Hflag.
  - intros Heq. discriminate Heq.
Qed.

(** [clean_latex] on [demo/main.tex] in the mode [all]. *)
Lemma clean_latex_command_witness :
  mode_flag (Some "all") "-C"
  ∧ @resolve_workspace_path demo_host "demo/main.tex" demo_world
    = (Ok {| _root := "/"; _tail := ["workspaces"; "demo"; "main.tex"] |}, demo_world)
  ∧ stat_exists demo_fs ["workspaces"]
      {| _root := "/"; _tail := ["workspaces"; "demo"; "main.tex"] |} = true
  ∧ ∃ r w',
      @clean_latex demo_host "demo/main.tex" (Some "all") demo_world = (r, w')
      ∧ spawned (w_trace w') =
          [("latexmk -C " +:+ dquote +:+ "main.tex" +:+ dquote,
            {| _root := "/"; _tail := ["workspaces"; "demo"] |})].
Proof.
  assert (@resolve_workspace_path demo_host "demo/main.tex" demo_world
          = (Ok {| _root := "/"; _tail := ["workspaces"; "demo"; "main.tex"] |}, demo_world))
    as Hres by (vm_compute; reflexivity).
  assert (stat_exists (w_fs demo_world) (w_cwd demo_world)
            {| _root := "/"; _tail := ["workspaces"; "demo"; "main.tex"] |} = true)
    as Hfound by (vm_compute; reflexivity).
  split_and!; [constructor|exact Hres|exact Hfound|].
  exact (proj1 (@clean_latex_command demo_host "demo/main.tex" (Some "all") "-C" demo_world _ _
                  mode_all Hres Hfound)).
Defined.



(** C9: for every relative input [p], the guard gives for [p] what it gives
    for the workspace root, a separator and [p] put together: the same
    path, or the same exception, and the same world.  The workspace root
    is taken in the form [Path.resolve] leaves it in at start-up. *)
Theorem resolve_workspace_path_relative `{Host} (p : string) (w : World) :
  resolved_form WORKSPACE_ROOT →
  Path_is_absolute (Path p) = false →
  resolve_workspace_path p w
  = resolve_workspace_path (Path_str WORKSPACE_ROOT +:+ "/" +:+ p) w.
Proof.
  intros Hroot Hrel.
  unfold resolve_workspace_path. rewrite !bind_run.
  assert (Path_resolve
            (if Path_is_absolute (Path p) then Path p
             else Path_joinpath WORKSPACE_ROOT (Path p)) w
          = Path_resolve
              (if Path_is_absolute (Path (Path_str WORKSPACE_ROOT +:+ "/" +:+ p))
               then Path (Path_str WORKSPACE_ROOT +:+ "/" +:+ p)
               else Path_joinpath WORKSPACE_ROOT (Path (Path_str WORKSPACE_ROOT +:+ "/" +:+ p)))
              w) as ->; [|done].
  rewrite (Path_root_sep_relative _ _ Hroot Hrel), Hrel.
  unfold Path_joinpath. rewrite Hrel.
  destruct Hroot as [Hr _]. rewrite Hr.
  destruct (_tail WORKSPACE_ROOT) as [|x xs] eqn:Htail.
  - change (Path_is_absolute {| _root := "//"; _tail := [] ++ _tail (Path p) |}) with true.
    cbv iota. symmetry. apply Path_resolve_double_slash.
  - done.
Qed.

(** The guard on [demo/../demo/main.tex] and on the same path spelt from
    the root [/workspaces]. *)
Lemma resolve_workspace_path_relative_witness :
  resolved_form (@WORKSPACE_ROOT demo_host)
  ∧ Path_is_absolute (Path "demo/../demo/main.tex") = false
  ∧ @resolve_workspace_path demo_host "demo/../demo/main.tex" demo_world
    = @resolve_workspace_path demo_host "/workspaces/demo/../demo/main.tex" demo_world.
Proof.
  assert (resolved_form (@WORKSPACE_ROOT demo_host)) as Hroot.
  { split; [reflexivity|]. repeat constructor. }
  split_and!; [exact Hroot|reflexivity|].
  exact (@resolve_workspace_path_relative demo_host "demo/../demo/main.tex" demo_world
           Hroot eq_refl).
Defined.

(** C10: an input whose normalized absolute form [n] stays within the
    workspace root, whatever [..] segments it is written with, passes the
    guard; the path returned is [n], and none of its segments is [..].
    On a file system without links the normalized form is the normal form
    of the text ([..] taking back the segment before it): an input without
    NUL byte whose normal form stays within the root passes the guard. *)
Theorem resolve_workspace_path_normalizes `{Host} (user_path : string) (w : World) :
  (∀ n,
     Path_resolve (absolute_form user_path) w = (Ok n, w) →
     contained_in WORKSPACE_ROOT n →
     resolve_workspace_path user_path w = (Ok n, w) ∧ ".." ∉ _tail n)
  ∧ (link_free (w_fs w) →
     _root WORKSPACE_ROOT = "/" →
     str_contains_char "000" (Path_str (absolute_form user_path)) = false →
     contained_in WORKSPACE_ROOT
       {| _root := "/";
          _tail := normpath (str_split (Path_str (absolute_form user_path))) |} →
     resolve_workspace_path user_path w
     = (Ok {| _root := "/";
              _tail := normpath (str_split (Path_str (absolute_form user_path))) |}, w)
     ∧ ".." ∉ normpath (str_split (Path_str (absolute_form user_path)))).
Proof.
  split.
  - intros n Hres Hin. split.
    + by apply resolve_workspace_path_inside.
    + by destruct (Path_resolve_ok _ _ _ _ Hres).
  - intros Hfree Hroot Hnul Hin. split; [|apply normpath_no_dotdot].
    apply resolve_workspace_path_inside; [|done].
    apply Path_resolve_link_free; [done| |done]. by apply absolute_form_rooted.
Qed.

(** [demo/../demo/main.tex] under the root [/workspaces]: written with a
    [..] segment, it stays within the root, passes the guard and comes back
    without it. *)
Lemma resolve_workspace_path_normalizes_witness :
  (Path_resolve (@absolute_form demo_host "demo/../demo/main.tex") demo_world
   = (Ok {| _root := "/"; _tail := ["workspaces"; "demo"; "main.tex"] |}, demo_world)
   ∧ contained_in (@WORKSPACE_ROOT demo_host)
       {| _root := "/"; _tail := ["workspaces"; "demo"; "main.tex"] |}
   ∧ @resolve_workspace_path demo_host "demo/../demo/main.tex" demo_world
     = (Ok {| _root := "/"; _tail := ["workspaces"; "demo"; "main.tex"] |}, demo_world)
   ∧ ".." ∉ ["workspaces"; "demo"; "main.tex"])
  ∧ (link_free demo_fs
     ∧ _root (@WORKSPACE_ROOT demo_host) = "/"
     ∧ str_contains_char "000" (Path_str (@absolute_form demo_host "demo/../demo/main.tex"))
       = false
     ∧ contained_in (@WORKSPACE_ROOT demo_host)
         {| _root := "/";
            _tail := normpath (str_split
                       (Path_str (@absolute_form demo_host "demo/../demo/main.tex"))) |}
     ∧ @resolve_workspace_path demo_host "demo/../demo/main.tex" demo_world
       = (Ok {| _root := "/";
                _tail := normpath (str_split
                           (Path_str (@absolute_form demo_host "demo/../demo/main.tex"))) |},
          demo_world)).
Proof.
  assert (Path_resolve (@absolute_form demo_host "demo/../demo/main.tex") demo_world
          = (Ok {| _root := "/"; _tail := ["workspaces"; "demo"; "main.tex"] |}, demo_world))
    as Hres by (vm_compute; reflexivity).
  assert (contained_in (@WORKSPACE_ROOT demo_host)
            {| _root := "/"; _tail := ["workspaces"; "demo"; "main.tex"] |}) as Hin.
  { split; [reflexivity|]. by exists ["demo"; "main.tex"]. }
  assert (contained_in (@WORKSPACE_ROOT demo_host)
            {| _root := "/";
               _tail := normpath (str_split
                          (Path_str (@absolute_form demo_host "demo/../demo/main.tex"))) |})
    as Hin'.
  { split; [reflexivity|]. by exists ["demo"; "main.tex"]. }
  split.
  - split_and!; [exact Hres|exact Hin|..];
      apply (proj1 (@resolve_workspace_path_normalizes demo_host
                      "demo/../demo/main.tex" demo_world) _ Hres Hin).
  - split_and!; [exact demo_fs_link_free|reflexivity|reflexivity|exact Hin'|].
    exact (proj1 (proj2 (@resolve_workspace_path_normalizes demo_host
                           "demo/../demo/main.tex" demo_world)
                    demo_fs_link_free eq_refl eq_refl Hin')).
Defined.

(** * Further properties of the server *)

(** ** The path the guard returns *)







(** *** Paths that are already resolved *)

(** Along a location made of entry names and clear of links, the walk
    goes straight. *)
Lemma joinrealpath_canonical depth fs rest :
  ∀ path seen,
    Forall entry_name rest →
    link_clear fs (path ++ rest) →
    joinrealpath depth fs path rest seen = (path ++ rest, true, seen).
Proof.
  induction rest as [|name rest IH]; intros path seen Hnames Hclear.
  { by rewrite joinrealpath_nil, app_nil_r. }
  apply Forall_cons in Hnames as [(H1 & H2 & H3 & _) Hnames].
  rewrite joinrealpath_plain; [|done..|].
  - rewrite IH; [by rewrite <- app_assoc|done|by rewrite <- app_assoc].
  - specialize (Hclear (S (length path))).
    replace (path ++ name :: rest) with ((path ++ [name]) ++ rest) in Hclear
      by (by rewrite <- app_assoc).
    rewrite take_app_length' in Hclear; [done|].
    rewrite length_app. simpl. lia.
Qed.


(** [resolve] leaves a resolved path as it is. *)
Lemma Path_resolve_canonical p w :
  _root p = "/" →
  Forall entry_name (_tail p) →
  link_clear (w_fs w) (_tail p) →
  str_contains_char "000" (Path_str p) = false →
  Path_resolve p w = (Ok p, w).
Proof.
  destruct p as [rt tl]. simpl. intros -> Hnames Hclear Hnul.
  unfold Path_resolve, read_world, realpath. rewrite Hnul.
  rewrite Path_str_absolute, isabs_sep.
  change (str_split (String sep (str_join "/" tl)))
    with ("" :: str_split (str_join "/" tl)).
  rewrite joinrealpath_skip by (by left).
  destruct tl as [|x xs].
  - simpl str_join. simpl str_split. rewrite joinrealpath_skip by (by left).
    by rewrite joinrealpath_nil.
  - rewrite str_split_join; [|done|].
    2: { eapply Forall_impl; [exact Hnames|]. by intros y (_ & _ & _ & ?). }
    rewrite joinrealpath_canonical by done. simpl app.
    by rewrite normpath_names.
Qed.

(** ** The tools beyond their specification *)

Section MoreTools.
Context `{Host}.

Lemma quiet_run_command_async cmd cwd w r w' :
  run_command_async cmd cwd w = (r, w') → w_cwd w' = w_cwd w.
Proof. intros Hrun. by destruct (run_command_async_spawned _ _ _ _ _ Hrun). Qed.

(** [build_latex] up to the command, for any engine: the flag is picked as
    the code picks it. *)
Lemma build_latex_runs_any file engine w p w1 :
  resolve_workspace_path file w = (Ok p, w1) →
  stat_exists (w_fs w1) (w_cwd w1) p = true →
  build_latex file engine w =
  (let flag :=
     if String.eqb (default "pdflatex" engine) "xelatex" then "-pdfxe"
     else if String.eqb (default "pdflatex" engine) "lualatex" then "-pdflua"
     else "-pdf" in
   run_command_async (latexmk_build_command flag (Path_name p)) (Path_parent p) ≫= λ log,
   Path_exists (Path_truediv (Path_parent p) (Path_stem p +:+ ".pdf")) ≫= λ pdf_exists : bool,
   mret (build_report (Path_parent p) (latexmk_build_command flag (Path_name p))
           (if pdf_exists
            then Path_str (Path_truediv (Path_parent p) (Path_stem p +:+ ".pdf"))
            else "NO")
           log))
    (add_event w1 (EvStat p)).
Proof.
  intros Hres Hfound. unfold build_latex.
  rewrite bind_run, (guarded_resolve_ok _ _ _ _ Hres).
  rewrite bind_run, Path_exists_run, Hfound.
  change (negb true) with false. cbv iota zeta.
  destruct (String.eqb (default "pdflatex" engine) "xelatex");
    [|destruct (String.eqb (default "pdflatex" engine) "lualatex")]; reflexivity.
Qed.

(** [clean_latex] up to the command, for any mode. *)
Lemma clean_latex_runs_any file mode w p w1 :
  resolve_workspace_path file w = (Ok p, w1) →
  stat_exists (w_fs w1) (w_cwd w1) p = true →
  clean_latex file mode w =
  (let flag := if String.eqb (default "aux" mode) "all" then "-C" else "-c" in
   run_command_async (latexmk_clean_command flag (Path_name p)) (Path_parent p) ≫= λ log,
   mret ("clean_latex finished." +:+ nl
         +:+ "Mode: " +:+ default "aux" mode +:+ nl
         +:+ "Command: " +:+ latexmk_clean_command flag (Path_name p) +:+ nl +:+ nl
         +:+ "--- Latexmk log ---" +:+ nl +:+ log))
    (add_event w1 (EvStat p)).
Proof.
  intros Hres Hfound. unfold clean_latex.
  rewrite bind_run, (guarded_resolve_ok _ _ _ _ Hres).
  rewrite bind_run, Path_exists_run, Hfound.
  change (negb true) with false. cbv iota zeta.
  destruct (String.eqb (default "aux" mode) "all"); reflexivity.
Qed.


Lemma clean_latex_not_found file mode w p w1 :
  resolve_workspace_path file w = (Ok p, w1) →
  stat_exists (w_fs w1) (w_cwd w1) p = false →
  ∃ guidance w',
    path_guidance (add_event w1 (EvStat p)) = (Ok guidance, w') ∧
    clean_latex file mode w
    = (Ok ("ERROR: File not found: " +:+ Path_str p +:+ nl +:+ guidance), w').
Proof.
  intros Hres Hmissing.
  destruct (returns_path_guidance (add_event w1 (EvStat p))) as (g & w' & Hg).
  exists g, w'. split; [done|]. unfold clean_latex.
  rewrite bind_run, (guarded_resolve_ok _ _ _ _ Hres).
  rewrite bind_run, Path_exists_run, Hmissing.
  change (negb false) with true. cbv iota.
  by rewrite (bind_run_ok _ _ _ _ _ Hg).
Qed.

Lemma read_latex_log_stopped file w msg w1 :
  resolve_workspace_path file w = (Raise (ValueError msg), w1) →
  read_latex_log file w = (Ok ("ERROR: " +:+ msg), w1).
Proof.
  intros Hres. unfold read_latex_log.
  by rewrite bind_run, (guarded_resolve_value_error _ _ _ _ Hres).
Qed.

Lemma quiet_read_latex_log file : quiet (read_latex_log file).
Proof.
  unfold read_latex_log. apply quiet_bind.
  - apply quiet_try_except.
    + apply quiet_bind; [apply quiet_resolve_workspace_path|]. intros ?. apply quiet_ret.
    + intros e h Hh. eapply quiet_except_ValueError; [|exact Hh]. intros ?. apply quiet_ret.
  - intros [report|abs_path]; [apply quiet_ret|].
    apply quiet_bind; [apply quiet_Path_exists|]. intros found.
    destruct (negb found).
    + apply quiet_bind; [apply quiet_path_guidance|]. intros ?. apply quiet_ret.
    + apply quiet_bind; [apply quiet_Path_read_text_ignore|]. intros ?. apply quiet_ret.
Qed.



End MoreTools.

(** ** Computations that do not look at the log *)

Lemma same_disk_refl w : same_disk w w.
Proof. done. Qed.

Lemma same_disk_trans w1 w2 w3 : same_disk w1 w2 → same_disk w2 w3 → same_disk w1 w3.
Proof. intros [? ?] [? ?]. split; congruence. Qed.

Lemma log_blind_ret {A} (a : A) : log_blind (mret a).
Proof. by intros w1 w2 Hd. Qed.

Lemma log_blind_raise {A} e : log_blind (raise (A:=A) e).
Proof. by intros w1 w2 Hd. Qed.

Lemma log_blind_lift_sum {A} (r : exn + A) : log_blind (lift_sum r).
Proof. destruct r; [apply log_blind_raise|apply log_blind_ret]. Qed.

Lemma log_blind_read_world {A} (f : World → Result A) :
  (∀ w1 w2, same_disk w1 w2 → f w1 = f w2) → log_blind (read_world f).
Proof. intros Hf w1 w2 Hd. unfold read_world. simpl. by rewrite (Hf _ _ Hd). Qed.

Lemma log_blind_log_event ev : log_blind (log_event ev).
Proof. intros w1 w2 [Hfs Hcwd]. by split. Qed.

Lemma log_blind_bind {A B} (m : M A) (f : A → M B) :
  log_blind m → (∀ a, log_blind (f a)) → log_blind (m ≫= f).
Proof.
  intros Hm Hf w1 w2 Hd. rewrite !bind_run.
  destruct (Hm _ _ Hd) as [Hr Hd'].
  destruct (m w1) as [[a|e] w1'], (m w2) as [r2 w2']; simpl in *; subst r2.
  - by apply Hf.
  - done.
Qed.

Lemma log_blind_try_except {A} (body : M A) handler :
  log_blind body → (∀ e h, handler e = Some h → log_blind h) →
  log_blind (try_except body handler).
Proof.
  intros Hb Hh w1 w2 Hd. unfold try_except.
  destruct (Hb _ _ Hd) as [Hr Hd'].
  destruct (body w1) as [[a|e] w1'], (body w2) as [r2 w2']; simpl in *; subst r2.
  - done.
  - destruct (handler e) as [h|] eqn:Eh; [by apply (Hh _ _ Eh)|done].
Qed.

Lemma log_blind_for_each {A B} (f : A → M B) xs :
  (∀ x, log_blind (f x)) → log_blind (for_each f xs).
Proof.
  intros Hf. induction xs as [|x xs IH]; simpl; [apply log_blind_ret|].
  apply log_blind_bind; [done|]. intros y.
  apply log_blind_bind; [done|]. intros ys. apply log_blind_ret.
Qed.

Lemma log_blind_filter_if {A} (test : A → M bool) xs :
  (∀ x, log_blind (test x)) → log_blind (filter_if test xs).
Proof.
  intros Hf. induction xs as [|x xs IH]; simpl; [apply log_blind_ret|].
  apply log_blind_bind; [done|]. intros y.
  apply log_blind_bind; [done|]. intros ys. apply log_blind_ret.
Qed.

Lemma log_blind_Path_resolve p : log_blind (Path_resolve p).
Proof. apply log_blind_read_world. by intros w1 w2 [-> ->]. Qed.

Lemma log_blind_Path_exists p : log_blind (Path_exists p).
Proof.
  apply log_blind_bind; [apply log_blind_log_event|]. intros _.
  apply log_blind_read_world. by intros w1 w2 [-> ->].
Qed.

Lemma log_blind_Path_is_dir p : log_blind (Path_is_dir p).
Proof.
  apply log_blind_bind; [apply log_blind_log_event|]. intros _.
  apply log_blind_read_world. by intros w1 w2 [-> ->].
Qed.

Lemma log_blind_Path_iterdir p : log_blind (Path_iterdir p).
Proof.
  apply log_blind_bind; [apply log_blind_log_event|]. intros _.
  apply log_blind_read_world. by intros w1 w2 [-> ->].
Qed.

Lemma log_blind_Path_read_text_ignore p : log_blind (Path_read_text_ignore p).
Proof.
  apply log_blind_bind; [apply log_blind_log_event|]. intros _.
  apply log_blind_read_world. by intros w1 w2 [-> ->].
Qed.

Section LogBlindServer.
Context `{Host}.

Lemma log_blind_workspace_overview n : log_blind (workspace_overview n).
Proof.
  unfold workspace_overview. apply log_blind_bind.
  - apply log_blind_try_except.
    + apply log_blind_bind; [apply log_blind_Path_iterdir|]. intros ?. apply log_blind_ret.
    + intros e h [= <-]. apply log_blind_ret.
  - intros [message|entries]; [apply log_blind_ret|].
    apply log_blind_bind; [apply log_blind_filter_if, log_blind_Path_is_dir|]. intros found.
    apply log_blind_bind; [|intros ?; apply log_blind_ret].
    apply log_blind_for_each. intros d.
    apply log_blind_bind; [|intros ?; apply log_blind_ret].
    apply log_blind_try_except.
    + apply log_blind_bind; [apply log_blind_Path_iterdir|]. intros ps.
      apply log_blind_bind; [apply log_blind_filter_if, log_blind_Path_is_dir|].
      intros ?. apply log_blind_ret.
    + intros e h [= <-]. apply log_blind_ret.
Qed.

Lemma log_blind_path_guidance : log_blind path_guidance.
Proof.
  unfold path_guidance, initial_guidance.
  apply log_blind_bind; [apply log_blind_workspace_overview|]. intros ?. apply log_blind_ret.
Qed.

Lemma log_blind_resolve_workspace_path file : log_blind (resolve_workspace_path file).
Proof.
  unfold resolve_workspace_path.
  apply log_blind_bind; [apply log_blind_Path_resolve|]. intros p.
  apply log_blind_bind; [|intros ?; apply log_blind_ret].
  apply log_blind_try_except.
  - apply log_blind_bind; [apply log_blind_lift_sum|]. intros ?. apply log_blind_ret.
  - intros e h Hh.
    assert (h = path_guidance ≫= λ guidance,
                raise (ValueError ("Path " +:+ Path_str p +:+ " is outside workspace root "
                                     +:+ Path_str WORKSPACE_ROOT +:+ ". " +:+ guidance)))
      as -> by (destruct e; simpl in Hh; congruence).
    apply log_blind_bind; [apply log_blind_path_guidance|]. intros ?. apply log_blind_raise.
Qed.

Lemma log_blind_read_latex_log file : log_blind (read_latex_log file).
Proof.
  unfold read_latex_log. apply log_blind_bind.
  - apply log_blind_try_except.
    + apply log_blind_bind; [apply log_blind_resolve_workspace_path|].
      intros ?. apply log_blind_ret.
    + intros e h Hh. destruct e; simpl in Hh; try done;
        injection Hh as <-; apply log_blind_ret.
  - intros [report|abs_path]; [apply log_blind_ret|].
    apply log_blind_bind; [apply log_blind_Path_exists|]. intros found.
    destruct (negb found).
    + apply log_blind_bind; [apply log_blind_path_guidance|]. intros ?. apply log_blind_ret.
    + apply log_blind_bind; [apply log_blind_Path_read_text_ignore|].
      intros ?. apply log_blind_ret.
Qed.

End LogBlindServer.

(** ** The workspace overview *)




Section Overview.
Context `{Host}.



End Overview.

(** ** The executor *)

(** X1: when the child ran and what it wrote is UTF-8, the executor returns
    the transcript: the command after [> ], an empty line, the standard
    output, the standard error, and for an exit code other than 0 (and only
    then) an empty line and the line that reports the code.  The file
    system is the one the child left. *)
Theorem run_command_async_transcript `{Host} (cmd : string) (cwd : PurePath) (w : World)
    (fs' : FS) (code : Z) (stdout stderr : list byte) (out err : string) :
  create_subprocess_shell cmd (Path_str cwd) (w_fs w) = inr (fs', (code, stdout, stderr)) →
  bytes_decode stdout = inr out →
  bytes_decode stderr = inr err →
  ∃ text w',
    run_command_async cmd cwd w = (Ok text, w')
    ∧ w_fs w' = fs'
    ∧ (code = 0%Z → text = "> " +:+ cmd +:+ nl +:+ nl +:+ out +:+ err)
    ∧ (code ≠ 0%Z →
       text = "> " +:+ cmd +:+ nl +:+ nl +:+ out +:+ err +:+ nl +:+ nl
                +:+ "[latex-mcp] Command exited with code " +:+ pretty code +:+ nl).
Proof.
  intros Hchild Hout Herr.
  eexists _, _. split; [exact (run_command_async_ok _ _ _ _ _ _ _ _ _ Hchild Hout Herr)|].
  split; [done|]. unfold transcript. split.
  - intros ->. rewrite bool_decide_eq_false_2 by (intros Hne; by apply Hne).
    by rewrite append_nil_r.
  - intros Hcode. by rewrite bool_decide_eq_true_2.
Qed.

(** A child that exits with code 12 after writing [ok]. *)
Lemma run_command_async_transcript_witness :
  failing_child "latexmk -v" "/workspaces" demo_fs
  = inr (<[ ["workspaces"; "demo"; "main.pdf"] := File [] ]> demo_fs, (12%Z, [x6f; x6b], []))
  ∧ bytes_decode [x6f; x6b] = inr "ok"
  ∧ bytes_decode [] = inr ""
  ∧ ∃ w',
      @run_command_async failing_host "latexmk -v"
        {| _root := "/"; _tail := ["workspaces"] |} demo_world
      = (Ok ("> latexmk -v" +:+ nl +:+ nl +:+ "ok" +:+ nl +:+ nl
             +:+ "[latex-mcp] Command exited with code 12" +:+ nl), w').
Proof.
  split_and!; [reflexivity..|].
  destruct (@run_command_async_transcript failing_host "latexmk -v"
              {| _root := "/"; _tail := ["workspaces"] |} demo_world _ 12%Z
              [x6f; x6b] [] "ok" "" eq_refl eq_refl eq_refl)
    as (text & w' & Hrun & _ & _ & Hcode).
  exists w'. rewrite Hrun, (Hcode ltac:(done)). reflexivity.
Defined.

(** X2: when the child cannot be started, [build_latex] and [clean_latex]
    raise the exception of the failed start: no report is made of it.  The
    start was attempted once and the file system is as it was. *)
Theorem tools_raise_when_child_cannot_start `{Host} (file : string) (w : World)
    (p : PurePath) (w1 : World) (e : exn) :
  resolve_workspace_path file w = (Ok p, w1) →
  stat_exists (w_fs w1) (w_cwd w1) p = true →
  (∀ engine flag,
     engine_flag engine flag →
     create_subprocess_shell (latexmk_build_command flag (Path_name p))
       (Path_str (Path_parent p)) (w_fs w) = inl e →
     ∃ w', build_latex file engine w = (Raise e, w')
           ∧ w_fs w' = w_fs w
           ∧ spawned (w_trace w') =
               spawned (w_trace w)
               ++ [(latexmk_build_command flag (Path_name p), Path_parent p)])
  ∧ (∀ mode flag,
       mode_flag mode flag →
       create_subprocess_shell (latexmk_clean_command flag (Path_name p))
         (Path_str (Path_parent p)) (w_fs w) = inl e →
       ∃ w', clean_latex file mode w = (Raise e, w')
             ∧ w_fs w' = w_fs w
             ∧ spawned (w_trace w') =
                 spawned (w_trace w)
                 ++ [(latexmk_clean_command flag (Path_name p), Path_parent p)]).
Proof.
  intros Hres Hfound.
  destruct (resolve_workspace_path_ok _ _ _ _ Hres) as (-> & _ & _).
  split.
  - intros engine flag Hflag Hchild.
    rewrite (build_latex_runs _ _ _ _ _ _ Hflag Hres Hfound).
    eexists. split_and!.
    + apply bind_run_raise. unfold run_command_async.
      apply bind_run_raise. rewrite subprocess_communicate_run.
      simpl w_fs. by rewrite Hchild.
    + done.
    + simpl. by rewrite !spawned_app, app_nil_r.
  - intros mode flag Hflag Hchild.
    rewrite (clean_latex_runs _ _ _ _ _ _ Hflag Hres Hfound).
    eexists. split_and!.
    + apply bind_run_raise. unfold run_command_async.
      apply bind_run_raise. rewrite subprocess_communicate_run.
      simpl w_fs. by rewrite Hchild.
    + done.
    + simpl. by rewrite !spawned_app, app_nil_r.
Qed.

(** A host whose shell is missing. *)
Lemma tools_raise_when_child_cannot_start_witness :
  @resolve_workspace_path absent_host "demo/main.tex" demo_world
  = (Ok {| _root := "/"; _tail := ["workspaces"; "demo"; "main.tex"] |}, demo_world)
  ∧ stat_exists demo_fs ["workspaces"]
      {| _root := "/"; _tail := ["workspaces"; "demo"; "main.tex"] |} = true
  ∧ (∃ w', @build_latex absent_host "demo/main.tex" None demo_world
           = (Raise (OSError "[Errno 2] No such file or directory: '/bin/sh'"), w'))
  ∧ (∃ w', @clean_latex absent_host "demo/main.tex" (Some "all") demo_world
           = (Raise (OSError "[Errno 2] No such file or directory: '/bin/sh'"), w')).
Proof.
  assert (@resolve_workspace_path absent_host "demo/main.tex" demo_world
          = (Ok {| _root := "/"; _tail := ["workspaces"; "demo"; "main.tex"] |}, demo_world))
    as Hres by (vm_compute; reflexivity).
  assert (stat_exists (w_fs demo_world) (w_cwd demo_world)
            {| _root := "/"; _tail := ["workspaces"; "demo"; "main.tex"] |} = true)
    as Hfound by (vm_compute; reflexivity).
  destruct (@tools_raise_when_child_cannot_start absent_host _ _ _ _
              (OSError "[Errno 2] No such file or directory: '/bin/sh'") Hres Hfound)
    as [Hbuild Hclean].
  split_and!; [exact Hres|exact Hfound| |].
  - destruct (Hbuild None "-pdf" engine_default eq_refl) as (w' & Hrun & _). by exists w'.
  - destruct (Hclean (Some "all") "-C" mode_all eq_refl) as (w' & Hrun & _). by exists w'.
Defined.

(** ** Reports and failures of the tools *)



(** X4: an exception of the guard that is no [ValueError], such as the
    [RuntimeError] of a link that leads back to itself, is not turned into
    a report: each of the three tools raises it, having looked at no file
    and started no command. *)
Theorem tools_raise_what_the_guard_raises `{Host} (file : string) (w w1 : World) (e : exn) :
  resolve_workspace_path file w = (Raise e, w1) →
  (∀ msg, e ≠ ValueError msg) →
  (∀ msg, e ≠ UnicodeDecodeError msg) →
  read_latex_log file w = (Raise e, w1)
  ∧ (∀ engine, build_latex file engine w = (Raise e, w1))
  ∧ (∀ mode, clean_latex file mode w = (Raise e, w1))
  ∧ w_fs w1 = w_fs w
  ∧ spawned (w_trace w1) = spawned (w_trace w).
Proof.
  intros Hres Hv Hu.
  pose proof (guarded_resolve_raise _ _ _ _ Hres) as Hguard.
  assert (match e with
          | ValueError _ | UnicodeDecodeError _ => Ok (inl ("ERROR: " +:+ exn_str e))
          | _ => Raise e
          end = Raise (A := string + PurePath) e) as Hcase.
  { destruct e as [msg|msg|msg|msg]; try reflexivity.
    - by destruct (Hv msg).
    - by destruct (Hu msg). }
  rewrite Hcase in Hguard.
  destruct (quiet_resolve_workspace_path _ _ _ _ Hres) as (Hfs & _ & Hsp).
  split_and!; [| | |done|done].
  - unfold read_latex_log. by apply bind_run_raise.
  - intros engine. unfold build_latex. by apply bind_run_raise.
  - intros mode. unfold clean_latex. by apply bind_run_raise.
Qed.

(** The input [loop/main.tex] where [loop] is a link to itself. *)
Lemma tools_raise_what_the_guard_raises_witness :
  @resolve_workspace_path demo_host "loop/main.tex" looped_world
  = (Raise (RuntimeError "Symlink loop from '/workspaces/loop/main.tex'"), looped_world)
  ∧ @read_latex_log demo_host "loop/main.tex" looped_world
    = (Raise (RuntimeError "Symlink loop from '/workspaces/loop/main.tex'"), looped_world)
  ∧ @build_latex demo_host "loop/main.tex" None looped_world
    = (Raise (RuntimeError "Symlink loop from '/workspaces/loop/main.tex'"), looped_world).
Proof.
  assert (@resolve_workspace_path demo_host "loop/main.tex" looped_world
          = (Raise (RuntimeError "Symlink loop from '/workspaces/loop/main.tex'"),
             looped_world)) as Hres by (vm_compute; reflexivity).
  destruct (@tools_raise_what_the_guard_raises demo_host _ _ _ _ Hres
              ltac:(discriminate) ltac:(discriminate)) as (Hlog & Hbuild & _).
  split_and!; [exact Hres|exact Hlog|exact (Hbuild None)].
Defined.

(** ** [read_latex_log] *)

(** X5: [read_latex_log] only reads.  Whatever the input and whatever
    comes of the call, the file system and the working directory are as
    they were and no command has been started. *)
Theorem read_latex_log_only_reads `{Host} (file : string) (w : World) :
  w_fs (read_latex_log file w).2 = w_fs w
  ∧ w_cwd (read_latex_log file w).2 = w_cwd w
  ∧ spawned (w_trace (read_latex_log file w).2) = spawned (w_trace w).
Proof.
  destruct (read_latex_log file w) as [r w'] eqn:Hrun.
  exact (quiet_read_latex_log file _ _ _ Hrun).
Qed.



(** X7: [read_latex_log] answers a second call as it answered the first:
    called again on the world the first call left, with the same input, it
    returns or raises the same. *)
Theorem read_latex_log_again `{Host} (file : string) (w : World) :
  (read_latex_log file (read_latex_log file w).2).1 = (read_latex_log file w).1.
Proof.
  destruct (read_latex_log file w) as [r w'] eqn:Hrun.
  destruct (quiet_read_latex_log file _ _ _ Hrun) as (Hfs & Hcwd & _).
  destruct (log_blind_read_latex_log file w' w (conj Hfs Hcwd)) as [Hsame _].
  cbn [fst snd]. by rewrite Hsame, Hrun.
Qed.

(** ** What the tools touch and start *)



(** X9: [build_latex] and [clean_latex] start at most one command in a
    call, for every input and whatever comes of the call.  When one is
    started it is [latexmk] on the name of the file the guard returned, in
    the directory that holds the file, with one of the flags [-pdf],
    [-pdfxe], [-pdflua] for a build and [-c], [-C] for a cleaning. *)
Theorem tools_start_only_latexmk `{Host} (file : string) (w : World) :
  (∀ engine,
     spawned (w_trace (build_latex file engine w).2) = spawned (w_trace w)
     ∨ ∃ p w1 flag,
         resolve_workspace_path file w = (Ok p, w1)
         ∧ flag ∈ ["-pdf"; "-pdfxe"; "-pdflua"]
         ∧ spawned (w_trace (build_latex file engine w).2)
           = spawned (w_trace w)
             ++ [(latexmk_build_command flag (Path_name p), Path_parent p)])
  ∧ (∀ mode,
       spawned (w_trace (clean_latex file mode w).2) = spawned (w_trace w)
       ∨ ∃ p w1 flag,
           resolve_workspace_path file w = (Ok p, w1)
           ∧ flag ∈ ["-c"; "-C"]
           ∧ spawned (w_trace (clean_latex file mode w).2)
             = spawned (w_trace w)
               ++ [(latexmk_clean_command flag (Path_name p), Path_parent p)]).
Proof.
  destruct (resolve_workspace_path file w) as [[p|e] w1] eqn:Hres.
  - destruct (resolve_workspace_path_ok _ _ _ _ Hres) as (-> & _ & _).
    destruct (stat_exists (w_fs w) (w_cwd w) p) eqn:Hfound.
    + split.
      * intros engine. right.
        exists p, w,
          (if String.eqb (default "pdflatex" engine) "xelatex" then "-pdfxe"
           else if String.eqb (default "pdflatex" engine) "lualatex" then "-pdflua"
           else "-pdf").
        split; [done|]. split.
        { destruct (String.eqb _ "xelatex"); [set_solver|].
          destruct (String.eqb _ "lualatex"); set_solver. }
        rewrite (build_latex_runs_any _ engine _ _ _ Hres Hfound). cbv zeta.
        match goal with |- context [?m (add_event w (EvStat p))] =>
          destruct (m (add_event w (EvStat p))) as [r w'] eqn:Hrun end.
        apply spawned_after_command in Hrun.
        -- by rewrite spawned_add_stat in Hrun.
        -- intros log. apply quiet_bind; [apply quiet_Path_exists|]. intros ?. apply quiet_ret.
      * intros mode. right.
        exists p, w, (if String.eqb (default "aux" mode) "all" then "-C" else "-c").
        split; [done|]. split.
        { destruct (String.eqb _ "all"); set_solver. }
        rewrite (clean_latex_runs_any _ mode _ _ _ Hres Hfound). cbv zeta.
        match goal with |- context [?m (add_event w (EvStat p))] =>
          destruct (m (add_event w (EvStat p))) as [r w'] eqn:Hrun end.
        apply spawned_after_command in Hrun.
        -- by rewrite spawned_add_stat in Hrun.
        -- intros log. apply quiet_ret.
    + split.
      * intros engine. left.
        destruct (build_latex_not_found file engine _ _ _ Hres Hfound)
          as (g & w' & Hg & ->).
        destruct (quiet_path_guidance _ _ _ Hg) as (_ & _ & Hq).
        cbn [snd]. by rewrite Hq, spawned_add_stat.
      * intros mode. left.
        destruct (clean_latex_not_found file mode _ _ _ Hres Hfound)
          as (g & w' & Hg & ->).
        destruct (quiet_path_guidance _ _ _ Hg) as (_ & _ & Hq).
        cbn [snd]. by rewrite Hq, spawned_add_stat.
  - pose proof (guarded_resolve_raise _ _ _ _ Hres) as Hguard.
    destruct (quiet_resolve_workspace_path _ _ _ _ Hres) as (_ & _ & Hsp).
    split.
    + intros engine. left. unfold build_latex.
      destruct e as [msg|msg|msg|msg];
        first [ rewrite (bind_run_raise _ _ _ _ _ Hguard)
              | rewrite (bind_run_ok _ _ _ _ _ Hguard) ]; exact Hsp.
    + intros mode. left. unfold clean_latex.
      destruct e as [msg|msg|msg|msg];
        first [ rewrite (bind_run_raise _ _ _ _ _ Hguard)
              | rewrite (bind_run_ok _ _ _ _ _ Hguard) ]; exact Hsp.
Qed.



(** ** The overview and the guidance *)


(** ** The guard *)

Lemma link_free_clear (fs : FS) loc : link_free fs → link_clear fs loc.
Proof. intros Hfree k. by apply os_lstat_link_free. Qed.

Lemma Path_joinpath_empty p : Path_joinpath p (Path "") = p.
Proof. destruct p as [root tail]. unfold Path_joinpath. simpl. by rewrite app_nil_r. Qed.





(** X14: the empty input and the input [.] pass the guard as the
    workspace root itself, for every root that is a real location: absolute,
    made of entry names, standing on no link.  The directory above such a
    root, in which the tools then work, is not within the root. *)
Theorem resolve_workspace_path_empty_input `{Host} (w : World) :
  _root WORKSPACE_ROOT = "/" →
  Forall entry_name (_tail WORKSPACE_ROOT) →
  link_clear (w_fs w) (_tail WORKSPACE_ROOT) →
  str_contains_char "000" (Path_str WORKSPACE_ROOT) = false →
  resolve_workspace_path "" w = (Ok WORKSPACE_ROOT, w)
  ∧ resolve_workspace_path "." w = (Ok WORKSPACE_ROOT, w)
  ∧ (_tail WORKSPACE_ROOT ≠ [] → ¬ contained_in WORKSPACE_ROOT (Path_parent WORKSPACE_ROOT)).
Proof.
  intros Hroot Hnames Hclear Hnul.
  assert (absolute_form "" = WORKSPACE_ROOT) as Hempty.
  { unfold absolute_form. change (Path_is_absolute (Path "")) with false. cbv iota.
    apply Path_joinpath_empty. }
  assert (absolute_form "." = WORKSPACE_ROOT) as Hdot.
  { unfold absolute_form. change (Path ".") with (Path ""). 
    change (Path_is_absolute (Path "")) with false. cbv iota.
    apply Path_joinpath_empty. }
  split_and!.
  - apply resolve_workspace_path_inside; [|apply contained_in_refl].
    rewrite Hempty. by apply Path_resolve_canonical.
  - apply resolve_workspace_path_inside; [|apply contained_in_refl].
    rewrite Hdot. by apply Path_resolve_canonical.
  - intros Htail [_ [below Hbelow]]. unfold Path_parent in Hbelow.
    destruct (_tail WORKSPACE_ROOT) as [|x xs] eqn:Ht; [done|].
    cbn [_tail] in Hbelow. apply (f_equal length) in Hbelow.
    rewrite length_app in Hbelow.
    assert (length (removelast (x :: xs)) < length (x :: xs)); [|lia].
    clear. revert x. induction xs as [|y ys IH]; intros x; simpl; [lia|].
    specialize (IH y). simpl in IH. lia.
Qed.

(** The root [/workspaces]. *)
Lemma resolve_workspace_path_empty_input_witness :
  _root (@WORKSPACE_ROOT demo_host) = "/"
  ∧ @resolve_workspace_path demo_host "" demo_world
    = (Ok {| _root := "/"; _tail := ["workspaces"] |}, demo_world)
  ∧ @resolve_workspace_path demo_host "." demo_world
    = (Ok {| _root := "/"; _tail := ["workspaces"] |}, demo_world)
  ∧ ¬ contained_in (@WORKSPACE_ROOT demo_host) {| _root := "/"; _tail := [] |}.
Proof.
  assert (Forall entry_name (_tail (@WORKSPACE_ROOT demo_host))) as Hnames.
  { repeat constructor; discriminate. }
  destruct (@resolve_workspace_path_empty_input demo_host demo_world eq_refl Hnames
              (link_free_clear _ _ demo_fs_link_free) eq_refl)
    as (Hempty & Hdot & Habove).
  split_and!; [reflexivity|exact Hempty|exact Hdot|].
  apply Habove. discriminate.
Defined.

(** ** Start-up *)

(** X15: [main] raises [RuntimeError] exactly when [ENABLE_STDIO] and
    [ENABLE_HTTP] are both set to the text [0].  Otherwise it serves: the
    standard pipe unless [ENABLE_STDIO] is [0], HTTP unless [ENABLE_HTTP]
    is [0], the pipe first.  Every other text, [false] and the empty text
    included, leaves a transport switched on, as leaving the variable
    unset does. *)
Theorem main_transports (environ : gmap string string) :
  (main environ
   = inl (RuntimeError "No transports enabled; set ENABLE_STDIO or ENABLE_HTTP to 1.")
   ↔ environ !! "ENABLE_STDIO" = Some "0" ∧ environ !! "ENABLE_HTTP" = Some "0")
  ∧ (∀ e, main environ = inl e →
       e = RuntimeError "No transports enabled; set ENABLE_STDIO or ENABLE_HTTP to 1.")
  ∧ (∀ tasks, main environ = inr tasks →
       tasks = (if decide (environ !! "ENABLE_STDIO" = Some "0") then [] else [Stdio])
               ++ (if decide (environ !! "ENABLE_HTTP" = Some "0") then []
                   else [StreamableHttp])).
Proof.
  unfold main.
  assert (∀ v : option string,
            (String.eqb (default "1" v) "0" = true ∧ v = Some "0")
            ∨ (String.eqb (default "1" v) "0" = false ∧ v ≠ Some "0")) as Hcase.
  { intros [s|]; simpl.
    - destruct (String.eqb_spec s "0") as [->|Hne]; [by left|right].
      split; [done|]. by intros [= ->].
    - by right. }
  destruct (Hcase (environ !! "ENABLE_STDIO")) as [[-> Hs]|[-> Hs]];
    destruct (Hcase (environ !! "ENABLE_HTTP")) as [[-> Hh]|[-> Hh]]; simpl;
    (split_and!;
     [ split; [done|try done; by intros [? ?]]
     | try done; by intros e [= <-]
     | try done; intros tasks [= <-];
       destruct (decide (environ !! "ENABLE_STDIO" = Some "0"));
       destruct (decide (environ !! "ENABLE_HTTP" = Some "0")); done ]).
Qed.

(** Both transports switched off, and the pipe switched off by the word
    [false]. *)
Lemma main_transports_witness :
  main env_none
  = inl (RuntimeError "No transports enabled; set ENABLE_STDIO or ENABLE_HTTP to 1.")
  ∧ main env_false = inr [Stdio].
Proof.
  split.
  - apply (proj1 (main_transports env_none)). split; reflexivity.
  - reflexivity.
Defined.





(** ** The report of a cleaning *)

(** X19: for an input that passes the guard and exists, when the child
    ran and what it wrote is UTF-8, [clean_latex] returns the line
    [clean_latex finished.], the mode as it was given ([aux] when left out),
    the command, an empty line, the heading of the log and the transcript of
    the command.  The file system is the one the child left. *)
Theorem clean_latex_report `{Host} (file : string) (mode : option string) (w : World)
    (p : PurePath) (w1 : World) (fs' : FS) (code : Z) (stdout stderr : list byte)
    (out err : string) :
  resolve_workspace_path file w = (Ok p, w1) →
  stat_exists (w_fs w1) (w_cwd w1) p = true →
  create_subprocess_shell
    (latexmk_clean_command (if String.eqb (default "aux" mode) "all" then "-C" else "-c")
       (Path_name p))
    (Path_str (Path_parent p)) (w_fs w) = inr (fs', (code, stdout, stderr)) →
  bytes_decode stdout = inr out →
  bytes_decode stderr = inr err →
  ∃ w',
    clean_latex file mode w
    = (Ok ("clean_latex finished." +:+ nl
           +:+ "Mode: " +:+ default "aux" mode +:+ nl
           +:+ "Command: "
           +:+ latexmk_clean_command
                 (if String.eqb (default "aux" mode) "all" then "-C" else "-c") (Path_name p)
           +:+ nl +:+ nl
           +:+ "--- Latexmk log ---" +:+ nl
           +:+ transcript
                 (latexmk_clean_command
                    (if String.eqb (default "aux" mode) "all" then "-C" else "-c")
                    (Path_name p))
                 out err code), w')
    ∧ w_fs w' = fs'.
Proof.
  intros Hres Hfound Hchild Hout Herr.
  destruct (resolve_workspace_path_ok _ _ _ _ Hres) as (-> & _ & _).
  rewrite (clean_latex_runs_any _ mode _ _ _ Hres Hfound). cbv zeta.
  eexists. split.
  - erewrite bind_run_ok; [reflexivity|].
    apply (run_command_async_ok _ _ (add_event w (EvStat p)) fs' code stdout stderr out err);
      done.
  - reflexivity.
Qed.

(** A cleaning of [demo/main.tex] with the mode [all]; the child writes
    nothing and exits with code 0. *)
Lemma clean_latex_report_witness :
  @resolve_workspace_path demo_host "demo/main.tex" demo_world
  = (Ok {| _root := "/"; _tail := ["workspaces"; "demo"; "main.tex"] |}, demo_world)
  ∧ stat_exists demo_fs ["workspaces"]
      {| _root := "/"; _tail := ["workspaces"; "demo"; "main.tex"] |} = true
  ∧ ∃ w',
      @clean_latex demo_host "demo/main.tex" (Some "all") demo_world
      = (Ok ("clean_latex finished." +:+ nl
             +:+ "Mode: all" +:+ nl
             +:+ "Command: latexmk -C " +:+ dquote +:+ "main.tex" +:+ dquote +:+ nl +:+ nl
             +:+ "--- Latexmk log ---" +:+ nl
             +:+ "> latexmk -C " +:+ dquote +:+ "main.tex" +:+ dquote +:+ nl +:+ nl), w').
Proof.
  assert (@resolve_workspace_path demo_host "demo/main.tex" demo_world
          = (Ok {| _root := "/"; _tail := ["workspaces"; "demo"; "main.tex"] |}, demo_world))
    as Hres by (vm_compute; reflexivity).
  assert (stat_exists (w_fs demo_world) (w_cwd demo_world)
            {| _root := "/"; _tail := ["workspaces"; "demo"; "main.tex"] |} = true)
    as Hfound by (vm_compute; reflexivity).
  split_and!; [exact Hres|exact Hfound|].
  destruct (@clean_latex_report demo_host "demo/main.tex" (Some "all") demo_world _ _
              demo_fs 0%Z [] [] "" "" Hres Hfound eq_refl eq_refl eq_refl)
    as (w' & Hrun & _).
  exists w'. rewrite Hrun. vm_compute. reflexivity.
Defined.

(** ** The files beside the source *)

Lemma str_rfind_last c a ext :
  str_contains_char c ext = false →
  str_rfind c (a +:+ String c ext) = Some (String.length a).
Proof.
  intros Hext.
  assert (str_rfind c ext = None) as Hnone.
  { induction ext as [|x ext IH]; [done|]. simpl in *.
    apply orb_false_iff in Hext as [Hx Hrest]. by rewrite (IH Hrest), Hx. }
  induction a as [|x a IH].
  - rewrite append_nil_l. simpl. by rewrite Hnone, Ascii.eqb_refl.
  - rewrite append_cons. simpl. by rewrite IH.
Qed.

Lemma substring_prefix a b : String.substring 0 (String.length a) (a +:+ b) = a.
Proof.
  induction a as [|x a IH].
  - rewrite append_nil_l. by destruct b.
  - rewrite append_cons. simpl. by rewrite IH.
Qed.

Lemma length_append a b : String.length (a +:+ b) = String.length a + String.length b.
Proof.
  induction a as [|x a IH]; [by rewrite append_nil_l|].
  rewrite append_cons. simpl. by rewrite IH.
Qed.

Lemma str_split_single s : str_contains_char sep s = false → str_split s = [s].
Proof.
  induction s as [|x s IH]; [done|]. simpl. intros Hs.
  apply orb_false_iff in Hs as [Hx Hrest]. rewrite Hx, (IH Hrest). done.
Qed.

Lemma str_contains_char_append c a b :
  str_contains_char c (a +:+ b) = str_contains_char c a || str_contains_char c b.
Proof.
  induction a as [|x a IH]; [by rewrite append_nil_l|].
  rewrite append_cons. simpl. by rewrite IH, orb_assoc.
Qed.

(** A name put after a directory by [/]. *)
Lemma Path_truediv_name dir base suffix :
  base ≠ "" →
  str_contains_char sep base = false →
  str_contains_char sep suffix = false →
  suffix ≠ "" →
  Path_truediv dir (base +:+ suffix)
  = {| _root := _root dir; _tail := _tail dir ++ [base +:+ suffix] |}.
Proof.
  intros Hbase Hsep Hsuf Hne.
  assert (str_contains_char sep (base +:+ suffix) = false) as Hname.
  { by rewrite str_contains_char_append, Hsep, Hsuf. }
  assert (2 ≤ String.length (base +:+ suffix)) as Hlen.
  { rewrite length_append. destruct base; [done|]. destruct suffix; [done|]. simpl. lia. }
  destruct (base +:+ suffix) as [|x [|y rest]] eqn:Hs; [simpl in Hlen; lia..|].
  unfold Path_truediv, Path_joinpath, Path.
  simpl in Hname. apply orb_false_iff in Hname as [Hx Hname].
  assert (splitroot (String x (String y rest)) = ("", String x (String y rest))) as ->.
  { unfold splitroot. unfold sep in Hx.
    destruct x as [[] [] [] [] [] [] [] []]; try reflexivity; discriminate Hx. }
  rewrite str_split_single by (simpl; by rewrite Hx).
  rewrite filter_cons_True, filter_nil; [done|].
  unfold keep_segment. simpl.
  destruct (Ascii.eqb x "."); reflexivity.
Qed.

(** X20: the log and the PDF are looked for beside the source, under its
    name with the last suffix replaced: for a file [base.ext] in a directory
    (the base not empty; the suffix not empty and without a dot), the paths
    made from the parent and the stem are [base.log] and [base.pdf] in that
    directory. *)
Theorem sibling_log_and_pdf (root : string) (dir : list string) (base ext : string) :
  base ≠ "" →
  ext ≠ "" →
  str_contains_char "." ext = false →
  str_contains_char sep base = false →
  let p := {| _root := root; _tail := dir ++ [base +:+ "." +:+ ext] |} in
  Path_stem p = base
  ∧ Path_parent p = {| _root := root; _tail := dir |}
  ∧ Path_truediv (Path_parent p) (Path_stem p +:+ ".log")
    = {| _root := root; _tail := dir ++ [base +:+ ".log"] |}
  ∧ Path_truediv (Path_parent p) (Path_stem p +:+ ".pdf")
    = {| _root := root; _tail := dir ++ [base +:+ ".pdf"] |}.
Proof.
  intros Hbase Hext Hdot Hsep p.
  assert (Path_stem p = base) as Hstem.
  { unfold Path_stem, Path_name, p. cbn [_tail]. rewrite List.last_last.
    change (base +:+ "." +:+ ext) with (base +:+ String "." ext).
    rewrite str_rfind_last by done.
    rewrite length_append. cbn [String.length].
    assert ((0 <? String.length base) && (String.length base <?
              String.length base + S (String.length ext) - 1) = true) as ->.
    { apply andb_true_iff. rewrite !Nat.ltb_lt.
      destruct base; [done|]. destruct ext; [done|]. simpl. lia. }
    apply substring_prefix. }
  assert (Path_parent p = {| _root := root; _tail := dir |}) as Hparent.
  { unfold Path_parent, p. cbn [_tail _root]. rewrite removelast_last.
    by destruct dir. }
  rewrite Hstem, Hparent. split_and!; [done|done| |].
  - by rewrite Path_truediv_name.
  - by rewrite Path_truediv_name.
Qed.

(** The file [/workspaces/demo/main.tex]. *)
Lemma sibling_log_and_pdf_witness :
  Path_truediv (Path_parent {| _root := "/"; _tail := ["workspaces"; "demo"; "main.tex"] |})
    (Path_stem {| _root := "/"; _tail := ["workspaces"; "demo"; "main.tex"] |} +:+ ".log")
  = {| _root := "/"; _tail := ["workspaces"; "demo"; "main.log"] |}.
Proof.
  exact (proj1 (proj2 (proj2
           (sibling_log_and_pdf "/" ["workspaces"; "demo"] "main" "tex"
              ltac:(discriminate) ltac:(discriminate) eq_refl eq_refl)))).
Defined.
